(** * The chief client of the MLRun API: a verification development

    Shallow embedding of [mlrun/api/utils/clients/chief.py].  A worker
    instance of the API forwards some requests to the chief instance; the
    [Client] class builds the chief URL, turns the inbound FastAPI request
    into keyword arguments of [requests.Session.request], sends it, logs
    the outcome and turns the [requests] response into a FastAPI response.

    Python objects that the code shares and mutates (the keyword-argument
    dictionaries and the dictionaries stored in them) live in an explicit
    store; exceptions are an explicit outcome; the logger and the HTTP
    session append to a trace of events. *)

From Stdlib Require Import ZArith Ascii String List Bool Lia.
From stdpp Require Import base list strings gmap.

Local Open Scope string_scope.
Local Open Scope Z_scope.
Local Open Scope list_scope.
Local Set Warnings "-register-all".

(** ** Strings *)

Module Str.

(** [s.endswith(c)] for a one-character suffix [c]. *)
Fixpoint endswith_char (c : ascii) (s : string) : bool :=
  match s with
  | EmptyString => false
  | String a EmptyString => Ascii.eqb a c
  | String _ rest => endswith_char c rest
  end.

(** [s.startswith(c)] for a one-character prefix [c]. *)
Definition startswith_char (c : ascii) (s : string) : bool :=
  match s with
  | EmptyString => false
  | String a _ => Ascii.eqb a c
  end.

(** The slice [s[:-1]]: everything but the last character. *)
Fixpoint drop_last (s : string) : string :=
  match s with
  | EmptyString => EmptyString
  | String _ EmptyString => EmptyString
  | String a rest => String a (drop_last rest)
  end.

(** Does the text contain two consecutive slashes? *)
Fixpoint has_double_slash (s : string) : bool :=
  match s with
  | EmptyString => false
  | String a rest =>
      (Ascii.eqb a "/" && startswith_char "/" rest) || has_double_slash rest
  end.

(** [str.lower] on the ASCII letters, the alphabet of header names. *)
Definition lower_ascii (a : ascii) : ascii :=
  let n := nat_of_ascii a in
  if (Nat.leb 65 n && Nat.leb n 90)%bool then ascii_of_nat (n + 32) else a.

Fixpoint lower (s : string) : string :=
  match s with
  | EmptyString => EmptyString
  | String a rest => String (lower_ascii a) (lower rest)
  end.

End Str.

(** ** Configuration and construction *)

(** The part of [mlrun.mlconf] the client reads: the value returned by
    [resolve_chief_api_url()], [api_base_version] and
    [httpdb.max_workers]. *)
Record Config := {
  chief_api_url : string;
  api_base_version : string;
  httpdb_max_workers : Z;
}.

(** [urllib3.util.retry.Retry(total=3, backoff_factor=1)] mounted on the
    session through an [HTTPAdapter] with [pool_maxsize]. *)
Record HTTPAdapter := {
  max_retries_total : Z;
  backoff_factor : Z;
  pool_maxsize : Z;
}.

Record Client := {
  _session : HTTPAdapter;
  _api_url : string;
  _conf : Config;
}.

(** [Client.__init__]: the chief URL is resolved once, and one trailing
    slash is removed when the URL ends with one. *)
Definition Client_init (conf : Config) : Client :=
  let http_adapter :=
    {| max_retries_total := 3; backoff_factor := 1;
       pool_maxsize := httpdb_max_workers conf |} in
  let api_url := chief_api_url conf in
  {| _session := http_adapter;
     _api_url := if Str.endswith_char "/" api_url
                 then Str.drop_last api_url else api_url;
     _conf := conf |}.

(** The f-string
    [f"{self._api_url}/api/{mlrun.mlconf.api_base_version}/{path}"]. *)
Definition build_url (self : Client) (path : string) : string :=
  _api_url self +:+ "/api/" +:+ api_base_version (_conf self) +:+ "/"
  +:+ path.

(** ** Python values and the object store *)

(** A decoded JSON document, as [response.json()] returns it.  The code
    only reads it and hands it to the logger, so it is kept as a tree. *)
Inductive json :=
| JNull
| JBool (b : bool)
| JNum (z : Z)
| JStr (s : string)
| JArr (items : list json)
| JObj (fields : list (string * json)).

(** Object identities. *)
Abbreviation loc := nat.

(** Values held in dictionaries and passed as keyword arguments.  A
    dictionary is a mutable object: a value refers to it by identity. *)
Inductive val :=
| VNone
| VBool (b : bool)
| VInt (z : Z)
| VStr (s : string)
| VJson (j : json)
| VRef (l : loc).

(** A dictionary with string keys, in insertion order. *)
Abbreviation pydict := (list (string * val)).

Module Dict.

Fixpoint get {V : Type} (k : string) (d : list (string * V)) : option V :=
  match d with
  | [] => None
  | (k', v) :: rest => if String.eqb k k' then Some v else get k rest
  end.

(** [d[k] = v]: the value of an existing key is replaced in place, a new
    key is appended. *)
Fixpoint set {V : Type} (k : string) (v : V) (d : list (string * V))
  : list (string * V) :=
  match d with
  | [] => [(k, v)]
  | (k', v') :: rest =>
      if String.eqb k k' then (k', v) :: rest else (k', v') :: set k v rest
  end.

(** [d.update(other)]. *)
Definition update {V : Type} (other d : list (string * V))
  : list (string * V) :=
  fold_left (fun acc kv => set (fst kv) (snd kv) acc) other d.

Definition keys {V : Type} (d : list (string * V)) : list string := map fst d.

End Dict.

(** The store: the dictionary objects allocated so far, by identity.
    Python never frees an object that is still referenced, so the store
    only grows. *)
Abbreviation heap := (list pydict).

(** ** HTTP responses *)

(** [requests.structures.CaseInsensitiveDict]: [_store] maps the lowered
    key to the pair of the key as it was last set and the value. *)
Abbreviation CaseInsensitiveDict := (list (string * (string * string))).

Module CID.

(** [__setitem__]: [self._store[key.lower()] = (key, value)]. *)
Definition setitem (key value : string) (store : CaseInsensitiveDict)
  : CaseInsensitiveDict :=
  Dict.set (Str.lower key) (key, value) store.

(** [__getitem__]: [self._store[key.lower()][1]]; [None] stands for the
    [KeyError]. *)
Definition getitem (key : string) (store : CaseInsensitiveDict)
  : option string :=
  option_map snd (Dict.get (Str.lower key) store).

(** [__iter__]: the keys as they were set. *)
Definition iter (store : CaseInsensitiveDict) : list string :=
  map (fun e => fst (snd e)) store.

(** [items()] of the mapping: cased key and value. *)
Definition items (store : CaseInsensitiveDict) : list (string * string) :=
  map snd store.

(** The store invariant that [__setitem__] maintains: every entry sits
    under the lowered form of its own key, and no lowered key is stored
    twice. *)
Fixpoint wf (store : CaseInsensitiveDict) : bool :=
  match store with
  | [] => true
  | (lk, (k, _)) :: rest =>
      String.eqb lk (Str.lower k)
      && match Dict.get lk rest with Some _ => false | None => true end
      && wf rest
  end.

End CID.

(** A [requests.Response], as far as the client reads it. *)
Record Response := {
  content : list Byte.byte;
  status_code : Z;
  headers : CaseInsensitiveDict;
}.

(** [Response.ok] of [requests]: [raise_for_status()] raises for a status
    in 400..599, and [ok] is false exactly when it raises. *)
Definition ok (r : Response) : bool :=
  negb ((400 <=? status_code r) && (status_code r <? 600)).

(** The [fastapi.responses.Response] the client builds, by the arguments
    given to its constructor. *)
Record FastAPIResponse := {
  resp_content : list Byte.byte;
  resp_status_code : Z;
  resp_headers : list (string * string);
  resp_media_type : string;
}.

(** [starlette.responses.Response.init_headers], which the constructor
    runs on its arguments to build the header lines that are sent
    ([raw_headers]): the names of the headers given are lowered, and a
    [content-type] line is made from [media_type] only when the headers
    given have no line of this name; a media type that starts with
    [text/] gets the charset ([utf-8]) appended.  The [content-length]
    line, which it makes from the body, is left out here. *)
Definition init_headers (resp : FastAPIResponse) : list (string * string) :=
  let raw_headers :=
    map (fun kv => (Str.lower (fst kv), snd kv)) (resp_headers resp) in
  let keys := map fst raw_headers in
  let populate_content_type :=
    negb (existsb (String.eqb "content-type") keys) in
  let content_type :=
    if String.prefix "text/" (resp_media_type resp)
    then resp_media_type resp +:+ "; charset=utf-8"
    else resp_media_type resp in
  if populate_content_type
  then raw_headers ++ [("content-type", content_type)]
  else raw_headers.

(** The values of the header lines of a name. *)
Definition header_values (name : string) (lines : list (string * string))
  : list string :=
  omap (fun kv => if String.eqb (fst kv) name then Some (snd kv) else None)
    lines.

(** The content type that the response declares to the caller. *)
Definition content_type_sent (resp : FastAPIResponse) : list string :=
  header_values "content-type" (init_headers resp).

(** ** Exceptions, events and the state *)

(** What [requests] raises when no response was obtained. *)
Inductive transport_error :=
| ConnectionError
| ConnectTimeout
| ReadTimeout
| SSLError.

Inductive exn :=
| TypeError (keyword : string)
| KeyError (key : string)
| AttributeError (attr : string)
| JSONDecodeError
| RequestException (e : transport_error)
| MLRunHTTPError (response : Response).

Inductive level := DEBUG | WARNING.

(** What the client does to the outside: a record handed to the logger,
    or a call of [Session.request]. *)
Inductive event :=
| EvLog (lvl : level) (message : string) (kw : pydict)
| EvRequest (method url : string) (verify : bool) (kw : pydict).

Record State := {
  st_heap : heap;
  st_trace : list event;
}.

Inductive result (A : Type) :=
| Return (a : A)
| Raise (e : exn).
Arguments Return {A} a.
Arguments Raise {A} e.

(** Computations that read and write the state and may raise. *)
Definition M (A : Type) : Type := State -> result A * State.

Definition ret {A} (a : A) : M A := fun s => (Return a, s).

Definition raise {A} (e : exn) : M A := fun s => (Raise e, s).

Definition bind {A B} (m : M A) (f : A -> M B) : M B :=
  fun s =>
    match m s with
    | (Return a, s') => f a s'
    | (Raise e, s') => (Raise e, s')
    end.

Notation "x <- m ;; k" := (bind m (fun x => k))
  (at level 100, m at next level, right associativity).
Notation "m ;;; k" := (bind m (fun _ => k))
  (at level 100, right associativity).

(** [try: body / except Exception: handler / else: orelse]. *)
Definition try_except_else {A B} (body : M A) (handler : exn -> M B)
    (orelse : A -> M B) : M B :=
  fun s =>
    match body s with
    | (Return a, s') => orelse a s'
    | (Raise e, s') => handler e s'
    end.

Definition get_heap : M heap := fun s => (Return (st_heap s), s).

Definition put_heap (h : heap) : M unit :=
  fun s => (Return tt, {| st_heap := h; st_trace := st_trace s |}).

Definition emit (e : event) : M unit :=
  fun s =>
    (Return tt, {| st_heap := st_heap s; st_trace := st_trace s ++ [e] |}).

(** A new dictionary object. *)
Definition alloc (d : pydict) : M loc :=
  fun s => (Return (length (st_heap s)),
            {| st_heap := st_heap s ++ [d]; st_trace := st_trace s |}).

(** The current contents of a dictionary object.  An identity outside
    the store has no contents; in a closed store there is none. *)
Definition heap_get (h : heap) (l : loc) : pydict := default [] (h !! l).

Definition deref (l : loc) : M pydict :=
  h <- get_heap ;; ret (heap_get h l).

(** In-place mutation of a dictionary object. *)
Definition modify (l : loc) (f : pydict -> pydict) : M unit :=
  h <- get_heap ;; put_heap (alter f l h).

(** ** [copy.deepcopy] *)

(** [copy.deepcopy] of a value: a dictionary is copied into a new object,
    its values recursively; [memo] maps the objects already copied to
    their copies, so that sharing and cycles are kept.  Other values are
    atomic and returned as they are.  [copy_item] is one turn of the loop
    [for key, value in x.items(): y[key] = deepcopy(value, memo)] for the
    copy [y] at [target].  The recursion is bounded by [fuel]; [deepcopy]
    below gives it one more than the number of objects, which is enough
    in every closed store ([deepcopy_fuel_spec]). *)
Definition copy_item
    (rec : val -> gmap loc loc -> heap -> val * gmap loc loc * heap)
    (target : loc) (acc : gmap loc loc * heap) (kv : string * val)
  : gmap loc loc * heap :=
  let '(v', memo', h') := rec (snd kv) (fst acc) (snd acc) in
  (memo', alter (Dict.set (fst kv) v') target h').

Fixpoint deepcopy_fuel (fuel : nat) (x : val) (memo : gmap loc loc) (h : heap)
  : val * gmap loc loc * heap :=
  match x with
  | VRef l =>
      match memo !! l with
      | Some l' => (VRef l', memo, h)
      | None =>
          match fuel, h !! l with
          | S n, Some d =>
              let l' := length h in
              let '(memo2, h2) :=
                fold_left (copy_item (deepcopy_fuel n) l') d
                  (<[l := l']> memo, h ++ [[]]) in
              (VRef l', memo2, h2)
          | _, _ => (x, memo, h)
          end
      end
  | _ => (x, memo, h)
  end.

Definition deepcopy (x : val) : M val :=
  h <- get_heap ;;
  let '(y, _, h') := deepcopy_fuel (S (length h)) x ∅ h in
  put_heap h' ;;; ret y.

(** [target.update(other)] on a value: only a dictionary has the method. *)
Definition dict_update (target : val) (other : pydict) : M unit :=
  match target with
  | VRef l => modify l (Dict.update other)
  | _ => raise (AttributeError "update")
  end.

(** [**target] on a value: the items of the dictionary. *)
Definition dict_items (target : val) : M pydict :=
  match target with
  | VRef l => deref l
  | _ => raise (TypeError "**")
  end.

(** ** Copies and closed stores *)

(** A value with its references replaced by their copies. *)
Definition rename_val (memo : gmap loc loc) (v : val) : val :=
  match v with
  | VRef l => match memo !! l with Some l' => VRef l' | None => v end
  | _ => v
  end.

Definition rename (memo : gmap loc loc) (d : pydict) : pydict :=
  map (fun kv => (fst kv, rename_val memo (snd kv))) d.

(** The references of a value, of a dictionary and of a store point into
    the first [n] objects.  Python has no dangling references: every store
    it can be in is closed. *)
Definition closed_val (n : nat) (v : val) : bool :=
  match v with
  | VRef l => bool_decide (l < n)%nat
  | _ => true
  end.

Definition closed_dict (n : nat) (d : pydict) : bool :=
  forallb (fun kv => closed_val n (snd kv)) d.

Definition closed_heap (h : heap) : bool :=
  forallb (closed_dict (length h)) h.

(** Every reference of the dictionary has a copy. *)
Definition covered (memo : gmap loc loc) (d : pydict) : Prop :=
  Forall (fun kv => forall l, snd kv = VRef l -> is_Some (memo !! l)) d.

(** The store [h'] extends the store [h] and agrees with it on every
    object of [h]. *)
Definition frames (h h' : heap) : Prop :=
  (length h <= length h')%nat
  /\ forall j, (j < length h)%nat -> h' !! j = h !! j.

(** [l'] holds the finished copy of the object [l] of the store [h0]. *)
Definition copied (h0 : heap) (memo : gmap loc loc) (h : heap) (l l' : loc)
  : Prop :=
  exists d, h0 !! l = Some d /\ covered memo d
            /\ h !! l' = Some (Dict.update (rename memo d) []).

(** The state of a deep copy of objects of [h0]: the store extends [h0],
    the copies are new objects, one for each object, and the copy of every
    object that is not in [pending] is finished. *)
Record copy_inv (h0 : heap) (pending : gset loc) (memo : gmap loc loc)
    (h : heap) : Prop := {
  inv_frames : frames h0 h;
  inv_range : forall l l', memo !! l = Some l' ->
                (l < length h0 <= l')%nat /\ (l' < length h)%nat;
  inv_inj : forall l1 l2 l', memo !! l1 = Some l' -> memo !! l2 = Some l' ->
              l1 = l2;
  inv_done : forall l l', memo !! l = Some l' -> l ∉ pending ->
               copied h0 memo h l l';
}.

(** ** Inbound requests *)

(** A [fastapi.Request], as far as the client reads it.  [headers] and
    [query_params] are immutable mappings, given by the entries that
    [dict(...)] reads from them; [cookies] is a dictionary object, and the
    request hands out that same object each time.  A request object is
    true in a condition; the absent request is [None]. *)
Record Request := {
  req_headers : list (string * string);
  req_query_params : list (string * string);
  req_cookies : loc;
}.

(** The contents of [dict(mapping)] for a mapping from strings to
    strings. *)
Definition entries_dict (entries : list (string * string)) : pydict :=
  Dict.update (map (fun kv => (fst kv, VStr (snd kv))) entries) [].

(** [dict(mapping)]: a new dictionary object. *)
Definition dict_of_entries (entries : list (string * string)) : M loc :=
  alloc (entries_dict entries).

(** ** Response translation *)

(** [dict(chief_response.headers)]: the keys come from [__iter__], each
    value from [__getitem__]. *)
Fixpoint dict_of_cid_keys (ks : list string) (store : CaseInsensitiveDict)
    (acc : list (string * string)) : result (list (string * string)) :=
  match ks with
  | [] => Return acc
  | k :: rest =>
      match CID.getitem k store with
      | Some v => dict_of_cid_keys rest store (Dict.set k v acc)
      | None => Raise (KeyError k)
      end
  end.

Definition dict_of_cid (store : CaseInsensitiveDict)
  : result (list (string * string)) :=
  dict_of_cid_keys (CID.iter store) store [].

Definition lift_result {A} (r : result A) : M A := fun s => (r, s).

(** [Client._convert_requests_response_to_fastapi_response]. *)
Definition _convert_requests_response_to_fastapi_response
    (chief_response : Response) : M FastAPIResponse :=
  hdrs <- lift_result (dict_of_cid (headers chief_response)) ;;
  ret {| resp_content := content chief_response;
         resp_status_code := status_code chief_response;
         resp_headers := hdrs;
         resp_media_type := "application/json" |}.

(** The response translation as a value: it reads no state. *)
Definition translated (r : Response) : result FastAPIResponse :=
  match dict_of_cid (headers r) with
  | Return hdrs =>
      Return {| resp_content := content r;
                resp_status_code := status_code r;
                resp_headers := hdrs;
                resp_media_type := "application/json" |}
  | Raise e => Raise e
  end.

(** ** Request translation *)

(** Truth value of [body]: [None] and the empty dictionary are false. *)
Definition body_truthy (h : heap) (body : option loc) : bool :=
  match body with
  | None => false
  | Some b => match heap_get h b with [] => false | _ => true end
  end.

(** [Client._resolve_request_kwargs_from_request].  The one-entry
    dictionaries given to [kwargs.update] are read at once and dropped;
    they get no place in the store. *)
Definition _resolve_request_kwargs_from_request
    (request : option Request) (body : option loc) : M loc :=
  kwargs <- alloc [] ;;
  match request with
  | Some request =>
      h <- get_heap ;;
      data <- (match body with
               | Some b => if body_truthy h body then ret b else alloc []
               | None => alloc []
               end) ;;
      modify kwargs (Dict.update [("data", VRef data)]) ;;;
      hdrs <- dict_of_entries (req_headers request) ;;
      modify kwargs (Dict.update [("headers", VRef hdrs)]) ;;;
      params <- dict_of_entries (req_query_params request) ;;
      modify kwargs (Dict.update [("params", VRef params)]) ;;;
      modify kwargs
        (Dict.update [("cookies", VRef (req_cookies request))]) ;;;
      ret kwargs
  | None => ret kwargs
  end.

(** ** What a call of [_proxy_request_to_chief] builds

    The dictionaries that request translation allocates, in the order of
    their allocation, and the keyword arguments that reach
    [Session.request]. *)

(** The object under ["data"]: the body when it is true, else a new empty
    dictionary, allocated right after [kwargs]. *)
Definition data_loc (h : heap) (body : option loc) : loc :=
  match body with
  | Some b => if body_truthy h body then b else S (length h)
  | None => S (length h)
  end.

Definition data_objects (h : heap) (body : option loc) : list pydict :=
  if body_truthy h body then [] else [[]].

(** The items of [request_kwargs]. *)
Definition request_kwargs_items (h : heap) (request : option Request)
    (body : option loc) : pydict :=
  match request with
  | None => []
  | Some request =>
      let n := (length h + 1 + length (data_objects h body))%nat in
      [("data", VRef (data_loc h body));
       ("headers", VRef n);
       ("params", VRef (S n));
       ("cookies", VRef (req_cookies request))]
  end.

(** The objects allocated by request translation. *)
Definition request_objects (h : heap) (request : option Request)
    (body : option loc) : list pydict :=
  match request with
  | None => [[]]
  | Some rq =>
      [request_kwargs_items h request body] ++ data_objects h body
      ++ [entries_dict (req_headers rq); entries_dict (req_query_params rq)]
  end.

(** The identity of the [kwargs] dictionary of [_send_request_to_api]. *)
Definition proxy_kwargs (h : heap) (request : option Request)
    (body : option loc) : loc :=
  (length h + length (request_objects h request body))%nat.

(** The keyword arguments given to [Session.request]. *)
Definition sent_kwargs (h : heap) (request : option Request)
    (body : option loc) : pydict :=
  request_kwargs_items h request body ++ [("timeout", VInt 20)].

(** The store when [Session.request] is called. *)
Definition sent_heap (h : heap) (request : option Request)
    (body : option loc) : heap :=
  h ++ request_objects h request body ++ [sent_kwargs h request body].

(** The cookies of the inbound request are an object of the store. *)
Definition request_closed (h : heap) (request : option Request) : bool :=
  match request with
  | Some rq => bool_decide (req_cookies rq < length h)%nat
  | None => true
  end.

(** ** Sending the request *)

(** Keyword arguments of a call that gives the keywords [explicit] by
    name, then unpacks the dictionary [star], then gives [trailing] by
    name: a keyword given both by name and by the dictionary is a
    [TypeError]. *)
Definition keywords (explicit star trailing : pydict) : M pydict :=
  match find (fun k => bool_decide (is_Some (Dict.get k star)))
             (Dict.keys (explicit ++ trailing)) with
  | Some k => raise (TypeError k)
  | None => ret (explicit ++ star ++ trailing)%list
  end.

(** [logger.debug(message, **kw)] and [logger.warning(message, **kw)]. *)
Definition logger_debug (message : string) (kw : pydict) : M unit :=
  emit (EvLog DEBUG message kw).

Definition logger_warning (message : string) (kw : pydict) : M unit :=
  emit (EvLog WARNING message kw).

(** The keyword parameters of [requests.Session.request], apart from
    [method] and [url] (given by position) and [verify] (given by name). *)
Definition session_request_parameters : list string :=
  ["params"; "data"; "headers"; "cookies"; "files"; "auth"; "timeout";
   "allow_redirects"; "proxies"; "hooks"; "stream"; "cert"; "json"].

(** The value a decoded JSON document has as a Python value: scalars are
    the scalars, containers stay documents. *)
Definition val_of_json (j : json) : val :=
  match j with
  | JNull => VNone
  | JBool b => VBool b
  | JNum z => VInt z
  | JStr s => VStr s
  | JArr _ | JObj _ => VJson j
  end.

(** [data.get(key)]: only an object (a [dict]) has the method. *)
Definition json_get (data : json) (key : string) : M val :=
  match data with
  | JObj fields =>
      ret (match Dict.get key fields with
           | Some v => val_of_json v
           | None => VNone
           end)
  | _ => raise (AttributeError "get")
  end.

(** Modelled from the spec: [mlrun.errors.raise_for_status] is not part of
    the sources at hand.  The spec says that it "converts the failed
    response into a domain error and raises it", the error "carrying the
    status and available error detail". *)
Definition raise_for_status (response : Response) : M unit :=
  if ok response then ret tt else raise (MLRunHTTPError response).

(** All keys are parameters of [Session.request]. *)
Definition keywords_accepted (kw : pydict) : bool :=
  forallb (fun k => bool_decide (k ∈ session_request_parameters))
          (Dict.keys kw).

Section WithLibrary.

(** What lies outside the client: the chief behind [Session.request],
    which answers a call with a response or fails with a transport error
    once the adapter has used up its retries; the JSON decoder behind
    [response.json()], where [None] stands for the exception it raises; and
    the text decoder behind [response.text]. *)
Variable session_request :
  heap -> string -> string -> bool -> pydict -> Response + transport_error.
Variable json_loads : Response -> option json.
Variable response_text : Response -> string.

(** [response.json()]. *)
Definition response_json (response : Response) : M json :=
  match json_loads response with
  | Some j => ret j
  | None => raise JSONDecodeError
  end.

(** [self._session.request(method, url, verify=False, **kwargs)]. *)
Definition session_request_call (method url : string) (kw : pydict)
  : M Response :=
  _ <- keywords [("method", VStr method); ("url", VStr url);
                 ("verify", VBool false)] kw [] ;;
  match find (fun k => negb (bool_decide (k ∈ session_request_parameters)))
             (Dict.keys kw) with
  | Some k => raise (TypeError k)
  | None =>
      emit (EvRequest method url false kw) ;;;
      h <- get_heap ;;
      match session_request h method url false kw with
      | inl response => ret response
      | inr e => raise (RequestException e)
      end
  end.

(** [Client._send_request_to_api]; [kwargs] is the dictionary that holds
    the keyword arguments of the call. *)
Definition _send_request_to_api (self : Client) (method path : string)
    (raise_on_failure : bool) (kwargs : loc) : M Response :=
  let url := build_url self path in
  kw0 <- deref kwargs ;;
  match Dict.get "timeout" kw0 with
  | None | Some VNone => modify kwargs (Dict.set "timeout" (VInt 20))
  | Some _ => ret tt
  end ;;;
  kw <- deref kwargs ;;
  log_kw <- keywords [("method", VStr method); ("url", VStr url)] kw [] ;;
  logger_debug "Sending request to chief" log_kw ;;;
  response <- session_request_call method url kw ;;
  if negb (ok response) then
    log_kwargs <- deepcopy (VRef kwargs) ;;
    dict_update log_kwargs [("method", VStr method); ("path", VStr path)] ;;;
    match content response with
    | [] => ret tt
    | _ :: _ =>
        try_except_else
          (data <- response_json response ;;
           error <- json_get data "error" ;;
           error_stack_trace <- json_get data "errorStackTrace" ;;
           ret (error, error_stack_trace))
          (fun _ => ret tt)
          (fun found =>
             dict_update log_kwargs
               [("error", fst found); ("error_stack_trace", snd found)])
    end ;;;
    log_kw <- dict_items log_kwargs ;;
    logger_warning "Request to chief failed" log_kw ;;;
    (if raise_on_failure then raise_for_status response else ret tt) ;;;
    ret response
  else
    data <- try_except_else
              (response_json response)
              (fun _ => ret (VStr (response_text response)))
              (fun j => ret (val_of_json j)) ;;
    kw <- deref kwargs ;;
    log_kw <- keywords [("method", VStr method); ("url", VStr url)] kw
                       [("response", data)] ;;
    logger_debug "Request to chief succeeded" log_kw ;;;
    ret response.

(** [Client._proxy_request_to_chief].  The call
    [self._send_request_to_api(method=..., path=..., raise_on_failure=...,
    **request_kwargs)] collects the items of [request_kwargs] in a new
    dictionary, the [kwargs] of the callee. *)
Definition _proxy_request_to_chief (self : Client) (method path : string)
    (request : option Request) (body : option loc) (raise_on_failure : bool)
  : M FastAPIResponse :=
  request_kwargs <- _resolve_request_kwargs_from_request request body ;;
  star <- deref request_kwargs ;;
  _ <- keywords [("method", VStr method); ("path", VStr path);
                 ("raise_on_failure", VBool raise_on_failure)] star [] ;;
  kwargs <- alloc star ;;
  chief_response <-
    _send_request_to_api self method path raise_on_failure kwargs ;;
  _convert_requests_response_to_fastapi_response chief_response.

(** ** The named operations *)

Definition get_internal_background_task (self : Client) (name : string)
    (request : option Request) : M FastAPIResponse :=
  _proxy_request_to_chief self "GET" ("background-tasks/" +:+ name)
    request None false.

Definition trigger_migrations (self : Client) (request : option Request)
  : M FastAPIResponse :=
  _proxy_request_to_chief self "POST" "operations/migrations"
    request None false.

Definition create_schedule (self : Client) (project : string)
    (request : Request) (body : option loc) : M FastAPIResponse :=
  _proxy_request_to_chief self "POST"
    ("projects/" +:+ project +:+ "/schedules") (Some request) body false.

Definition update_schedule (self : Client) (project name : string)
    (request : Request) (body : option loc) : M FastAPIResponse :=
  _proxy_request_to_chief self "PUT"
    ("projects/" +:+ project +:+ "/schedules/" +:+ name)
    (Some request) body false.

Definition delete_schedule (self : Client) (project name : string)
    (request : Request) : M FastAPIResponse :=
  _proxy_request_to_chief self "DELETE"
    ("projects/" +:+ project +:+ "/schedules/" +:+ name)
    (Some request) None false.

Definition delete_schedules (self : Client) (project : string)
    (request : Request) : M FastAPIResponse :=
  _proxy_request_to_chief self "DELETE"
    ("projects/" +:+ project +:+ "/schedules") (Some request) None false.

Definition invoke_schedule (self : Client) (project name : string)
    (request : Request) : M FastAPIResponse :=
  _proxy_request_to_chief self "POST"
    ("projects/" +:+ project +:+ "/schedules/" +:+ name +:+ "/invoke")
    (Some request) None false.

Definition submit_job (self : Client) (request : Request)
    (body : option loc) : M FastAPIResponse :=
  _proxy_request_to_chief self "POST" "submit_job" (Some request) body false.

Definition build_function (self : Client) (request : Request)
    (body : option loc) : M FastAPIResponse :=
  _proxy_request_to_chief self "POST" "build/function"
    (Some request) body false.

Definition delete_project (self : Client) (name : string)
    (request : Request) : M FastAPIResponse :=
  _proxy_request_to_chief self "DELETE" ("projects/" +:+ name)
    (Some request) None false.

(** A call of one of the named operations. *)
Inductive Operation :=
| OpGetInternalBackgroundTask (name : string) (request : option Request)
| OpTriggerMigrations (request : option Request)
| OpCreateSchedule (project : string) (request : Request) (body : option loc)
| OpUpdateSchedule (project name : string) (request : Request)
    (body : option loc)
| OpDeleteSchedule (project name : string) (request : Request)
| OpDeleteSchedules (project : string) (request : Request)
| OpInvokeSchedule (project name : string) (request : Request)
| OpSubmitJob (request : Request) (body : option loc)
| OpBuildFunction (request : Request) (body : option loc)
| OpDeleteProject (name : string) (request : Request).

Definition call (self : Client) (op : Operation) : M FastAPIResponse :=
  match op with
  | OpGetInternalBackgroundTask name request =>
      get_internal_background_task self name request
  | OpTriggerMigrations request => trigger_migrations self request
  | OpCreateSchedule project request body =>
      create_schedule self project request body
  | OpUpdateSchedule project name request body =>
      update_schedule self project name request body
  | OpDeleteSchedule project name request =>
      delete_schedule self project name request
  | OpDeleteSchedules project request =>
      delete_schedules self project request
  | OpInvokeSchedule project name request =>
      invoke_schedule self project name request
  | OpSubmitJob request body => submit_job self request body
  | OpBuildFunction request body => build_function self request body
  | OpDeleteProject name request => delete_project self name request
  end.

(** ** What a call of [_send_request_to_api] amounts to

    The pieces below name the intermediate results of the method, so that
    its effect on the state can be written down in one equation. *)

(** The store once the default timeout has been filled in. *)
Definition send_heap (kwargs : loc) (h : heap) : heap :=
  match Dict.get "timeout" (heap_get h kwargs) with
  | None | Some VNone => alter (Dict.set "timeout" (VInt 20)) kwargs h
  | Some _ => h
  end.

(** The body as the success branch logs it. *)
Definition decoded (r : Response) : val :=
  match json_loads r with
  | Some j => val_of_json j
  | None => VStr (response_text r)
  end.

(** The error details the failure branch adds to the log record: none when
    the body is empty, cannot be decoded, or is not an object. *)
Definition error_details (r : Response) : pydict :=
  match content r with
  | [] => []
  | _ :: _ =>
      match json_loads r with
      | Some (JObj fields) =>
          [("error",
            match Dict.get "error" fields with
            | Some v => val_of_json v
            | None => VNone
            end);
           ("error_stack_trace",
            match Dict.get "errorStackTrace" fields with
            | Some v => val_of_json v
            | None => VNone
            end)]
      | _ => []
      end
  end.

(** Where the copy made for the log record lives. *)
Definition log_loc (kwargs : loc) (h : heap) : loc :=
  match (deepcopy_fuel (S (length h)) (VRef kwargs) ∅ h).1.1 with
  | VRef l => l
  | _ => 0%nat
  end.

(** The store after the failure branch. *)
Definition failure_heap (method path : string) (r : Response)
    (kwargs : loc) (h : heap) : heap :=
  alter (Dict.update (error_details r)) (log_loc kwargs h)
    (alter (Dict.update [("method", VStr method); ("path", VStr path)])
       (log_loc kwargs h)
       (deepcopy_fuel (S (length h)) (VRef kwargs) ∅ h).2).

End WithLibrary.

(** ** The table of named operations, as the specification gives it

    Method and path template of each operation, with the path variables
    filled in, and the inbound request and body that the operation
    forwards. *)

Definition op_method (op : Operation) : string :=
  match op with
  | OpGetInternalBackgroundTask _ _ => "GET"
  | OpTriggerMigrations _ => "POST"
  | OpCreateSchedule _ _ _ => "POST"
  | OpUpdateSchedule _ _ _ _ => "PUT"
  | OpDeleteSchedule _ _ _ => "DELETE"
  | OpDeleteSchedules _ _ => "DELETE"
  | OpInvokeSchedule _ _ _ => "POST"
  | OpSubmitJob _ _ => "POST"
  | OpBuildFunction _ _ => "POST"
  | OpDeleteProject _ _ => "DELETE"
  end.

Definition op_path (op : Operation) : string :=
  match op with
  | OpGetInternalBackgroundTask name _ => "background-tasks/" +:+ name
  | OpTriggerMigrations _ => "operations/migrations"
  | OpCreateSchedule project _ _ => "projects/" +:+ project +:+ "/schedules"
  | OpUpdateSchedule project name _ _ =>
      "projects/" +:+ project +:+ "/schedules/" +:+ name
  | OpDeleteSchedule project name _ =>
      "projects/" +:+ project +:+ "/schedules/" +:+ name
  | OpDeleteSchedules project _ => "projects/" +:+ project +:+ "/schedules"
  | OpInvokeSchedule project name _ =>
      "projects/" +:+ project +:+ "/schedules/" +:+ name +:+ "/invoke"
  | OpSubmitJob _ _ => "submit_job"
  | OpBuildFunction _ _ => "build/function"
  | OpDeleteProject name _ => "projects/" +:+ name
  end.

Definition op_request (op : Operation) : option Request :=
  match op with
  | OpGetInternalBackgroundTask _ request => request
  | OpTriggerMigrations request => request
  | OpCreateSchedule _ request _ => Some request
  | OpUpdateSchedule _ _ request _ => Some request
  | OpDeleteSchedule _ _ request => Some request
  | OpDeleteSchedules _ request => Some request
  | OpInvokeSchedule _ _ request => Some request
  | OpSubmitJob request _ => Some request
  | OpBuildFunction request _ => Some request
  | OpDeleteProject _ request => Some request
  end.

Definition op_body (op : Operation) : option loc :=
  match op with
  | OpCreateSchedule _ _ body => body
  | OpUpdateSchedule _ _ _ body => body
  | OpSubmitJob _ body => body
  | OpBuildFunction _ body => body
  | _ => None
  end.

(** ** Observations on the trace *)

(** Method and URL of the calls of [Session.request]. *)
Definition requests_sent (tr : list event) : list (string * string) :=
  omap (fun e => match e with
                 | EvRequest method url _ _ => Some (method, url)
                 | EvLog _ _ _ => None
                 end) tr.

(** The calls of [Session.request]. *)
Definition session_calls (tr : list event) : list event :=
  List.filter
    (fun e => match e with EvRequest _ _ _ _ => true | _ => false end) tr.

(** The events added to the trace [before] in the trace [after]. *)
Definition events_since (before after : list event) : list event :=
  drop (length before) after.

(** The failure branch of [_send_request_to_api] is the one that logs the
    warning; the success branch is the one that logs the decoded body. *)
Definition logged_failure (tr : list event) : bool :=
  existsb (fun e => match e with
                    | EvLog WARNING "Request to chief failed" _ => true
                    | _ => false
                    end) tr.

Definition logged_success (tr : list event) : bool :=
  existsb (fun e => match e with
                    | EvLog DEBUG "Request to chief succeeded" _ => true
                    | _ => false
                    end) tr.

(** A status outside 200..299, the failure condition in the words of the
    specification. *)
Definition non_2xx (status : Z) : bool :=
  negb ((200 <=? status) && (status <? 300)).

(** A status of the gateway kind: 502, 503 or 504. *)
Definition gateway_status (status : Z) : bool :=
  (status =? 502) || (status =? 503) || (status =? 504).

(** The outcome of a computation started in a state. *)
Definition outcome {A} (m : M A) (s : State) : result A := fst (m s).

(** The trace after a computation started in a state. *)
Definition trace_after {A} (m : M A) (s : State) : list event :=
  st_trace (snd (m s)).

(** The store after a computation started in a state. *)
Definition heap_after {A} (m : M A) (s : State) : heap :=
  st_heap (snd (m s)).

(** ** Sample values *)

Module Sample.

Definition conf : Config :=
  {| chief_api_url := "http://chief:8080/";
     api_base_version := "v1";
     httpdb_max_workers := 64 |}.

(** A configured URL that ends with two slashes. *)
Definition conf_two_slashes : Config :=
  {| chief_api_url := "http://chief:8080//";
     api_base_version := "v1";
     httpdb_max_workers := 64 |}.

(** The bytes of [{"error":"boom"}]. *)
Definition boom : list Byte.byte :=
  [Byte.x7b; Byte.x22; Byte.x65; Byte.x72; Byte.x72; Byte.x6f; Byte.x72;
   Byte.x22; Byte.x3a; Byte.x22; Byte.x62; Byte.x6f; Byte.x6f; Byte.x6d;
   Byte.x22; Byte.x7d].

(** The bytes of [{"a":1}]. *)
Definition a1 : list Byte.byte :=
  [Byte.x7b; Byte.x22; Byte.x61; Byte.x22; Byte.x3a; Byte.x31; Byte.x7d].

Definition r200 : Response :=
  {| content := a1; status_code := 200;
     headers := [("x", ("X", "y"));
                 ("content-type", ("Content-Type", "text/plain"))] |}.

Definition r204 : Response :=
  {| content := []; status_code := 204; headers := [] |}.

Definition r304 : Response :=
  {| content := []; status_code := 304; headers := [] |}.

Definition r500 : Response :=
  {| content := boom; status_code := 500;
     headers := [("content-type", ("Content-Type", "application/json"))] |}.

(** A chief that answers every call with the same response. *)
Definition answers (r : Response)
  : heap -> string -> string -> bool -> pydict -> Response + transport_error :=
  fun _ _ _ _ _ => inl r.

(** A chief that cannot be reached. *)
Definition unreachable
  : heap -> string -> string -> bool -> pydict -> Response + transport_error :=
  fun _ _ _ _ _ => inr ConnectionError.

(** A decoder that knows the bodies of the sample responses, and fails on
    the empty ones. *)
Definition json_loads (r : Response) : option json :=
  if status_code r =? 500 then Some (JObj [("error", JStr "boom")])
  else if status_code r =? 200 then Some (JObj [("a", JNum 1)])
  else None.

(** A decoder that fails on every body. *)
Definition json_fails (r : Response) : option json := None.

Definition response_text (r : Response) : string := "".

(** A store with a body [{"job": {"name": "train"}}] at 0 and 1 and the
    cookies [{"session": "abc"}] at 2. *)
Definition store : heap :=
  [[("job", VRef 1%nat)]; [("name", VStr "train")]; [("session", VStr "abc")]].

Definition state : State := {| st_heap := store; st_trace := [] |}.

Definition request : Request :=
  {| req_headers := [("authorization", "Bearer t")];
     req_query_params := [("q", "1")];
     req_cookies := 2%nat |}.

End Sample.

(** ** Header dictionaries as [requests] builds them *)

(** The case-insensitive dictionary obtained from the empty one by setting
    the given headers one after the other with [__setitem__]. *)
Definition cid_build (sets : list (string * string)) : CaseInsensitiveDict :=
  fold_left (fun store kv => CID.setitem (fst kv) (snd kv) store) sets [].

(** ** Path variables *)

(** The text has no slash at all. *)
Fixpoint slash_free (s : string) : bool :=
  match s with
  | EmptyString => true
  | String a rest => negb (Ascii.eqb a "/") && slash_free rest
  end.

(** A text that can stand between two slashes without making a double
    slash: not empty, no slash at either end, no double slash inside. *)
Definition clean_segment (s : string) : bool :=
  negb (String.eqb s "")
  && negb (Str.startswith_char "/" s)
  && negb (Str.endswith_char "/" s)
  && negb (Str.has_double_slash s).

(** The places of the double slashes of a text: the indices, counted from
    [n] for the first character, at which a slash is followed by a
    slash. *)
Fixpoint double_slashes_from (n : nat) (s : string) : list nat :=
  match s with
  | EmptyString => []
  | String a rest =>
      (if Ascii.eqb a "/" && Str.startswith_char "/" rest then [n] else [])
      ++ double_slashes_from (S n) rest
  end.

Definition double_slashes (s : string) : list nat := double_slashes_from 0 s.

(** Which of the named operations a call is. *)
Inductive OpKind :=
| KGetInternalBackgroundTask
| KTriggerMigrations
| KCreateSchedule
| KUpdateSchedule
| KDeleteSchedule
| KDeleteSchedules
| KInvokeSchedule
| KSubmitJob
| KBuildFunction
| KDeleteProject.

Definition op_kind (op : Operation) : OpKind :=
  match op with
  | OpGetInternalBackgroundTask _ _ => KGetInternalBackgroundTask
  | OpTriggerMigrations _ => KTriggerMigrations
  | OpCreateSchedule _ _ _ => KCreateSchedule
  | OpUpdateSchedule _ _ _ _ => KUpdateSchedule
  | OpDeleteSchedule _ _ _ => KDeleteSchedule
  | OpDeleteSchedules _ _ => KDeleteSchedules
  | OpInvokeSchedule _ _ _ => KInvokeSchedule
  | OpSubmitJob _ _ => KSubmitJob
  | OpBuildFunction _ _ => KBuildFunction
  | OpDeleteProject _ _ => KDeleteProject
  end.

(** The path variables of a call, in the order of the path. *)
Definition op_variables (op : Operation) : list string :=
  match op with
  | OpGetInternalBackgroundTask name _ => [name]
  | OpTriggerMigrations _ => []
  | OpCreateSchedule project _ _ => [project]
  | OpUpdateSchedule project name _ _ => [project; name]
  | OpDeleteSchedule project name _ => [project; name]
  | OpDeleteSchedules project _ => [project]
  | OpInvokeSchedule project name _ => [project; name]
  | OpSubmitJob _ _ => []
  | OpBuildFunction _ _ => []
  | OpDeleteProject name _ => [name]
  end.

(** * Properties *)

Example build_url_plain :
  build_url (Client_init {| chief_api_url := "http://chief:8080";
                            api_base_version := "v1";
                            httpdb_max_workers := 64 |}) "submit_job"
  = "http://chief:8080/api/v1/submit_job".
Proof. reflexivity. Qed.

Example build_url_slash :
  build_url (Client_init {| chief_api_url := "http://chief:8080/";
                            api_base_version := "v1";
                            httpdb_max_workers := 64 |}) "submit_job"
  = "http://chief:8080/api/v1/submit_job".
Proof. reflexivity. Qed.


(** [copy.deepcopy] keeps a cycle a cycle: the copy of a dictionary that
    holds itself holds the copy. *)
Example deepcopy_cycle :
  deepcopy (VRef 0%nat)
    {| st_heap := [[("self", VRef 0%nat)]]; st_trace := [] |}
  = (Return (VRef 1%nat),
     {| st_heap := [[("self", VRef 0%nat)]; [("self", VRef 1%nat)]];
        st_trace := [] |}).
Proof. reflexivity. Qed.

(** An object that is reached twice is copied once. *)
Example deepcopy_sharing :
  deepcopy (VRef 0%nat)
    {| st_heap := [[("a", VRef 1%nat); ("b", VRef 1%nat)]; [("k", VInt 1)]];
       st_trace := [] |}
  = (Return (VRef 2%nat),
     {| st_heap := [[("a", VRef 1%nat); ("b", VRef 1%nat)]; [("k", VInt 1)];
                    [("a", VRef 3%nat); ("b", VRef 3%nat)]; [("k", VInt 1)]];
        st_trace := [] |}).
Proof. reflexivity. Qed.

(** A failing response with the body [{"error":"boom"}]: the response is
    passed through and the warning carries the error. *)
Example forward_500_logs_error :
  let run :=
    trigger_migrations (Sample.answers Sample.r500) Sample.json_loads
      Sample.response_text (Client_init Sample.conf) None in
  outcome run Sample.state
  = Return {| resp_content := Sample.boom;
              resp_status_code := 500;
              resp_headers := [("Content-Type", "application/json")];
              resp_media_type := "application/json" |}
  /\ events_since [] (trace_after run Sample.state)
     = [EvLog DEBUG "Sending request to chief"
          [("method", VStr "POST");
           ("url", VStr "http://chief:8080/api/v1/operations/migrations");
           ("timeout", VInt 20)];
        EvRequest "POST" "http://chief:8080/api/v1/operations/migrations"
          false [("timeout", VInt 20)];
        EvLog WARNING "Request to chief failed"
          [("timeout", VInt 20); ("method", VStr "POST");
           ("path", VStr "operations/migrations");
           ("error", VStr "boom"); ("error_stack_trace", VNone)]].
Proof. split; reflexivity. Qed.

(** A response without a body: decoding fails, the text is logged, and
    the empty body is returned. *)
Example forward_204_empty_body :
  let run :=
    delete_project (Sample.answers Sample.r204) Sample.json_loads
      Sample.response_text (Client_init Sample.conf) "p" Sample.request in
  outcome run Sample.state
  = Return {| resp_content := [];
              resp_status_code := 204;
              resp_headers := [];
              resp_media_type := "application/json" |}
  /\ logged_success (trace_after run Sample.state) = true.
Proof. split; reflexivity. Qed.

(** ** Running computations *)

Lemma run_bind_return {A B} (m : M A) (f : A -> M B) s a s' :
  m s = (Return a, s') -> (x <- m ;; f x) s = f a s'.
Proof. intros H. unfold bind. now rewrite H. Qed.

Lemma deref_run l h tr :
  deref l {| st_heap := h; st_trace := tr |}
  = (Return (heap_get h l), {| st_heap := h; st_trace := tr |}).
Proof. reflexivity. Qed.

Lemma modify_run l f h tr :
  modify l f {| st_heap := h; st_trace := tr |}
  = (Return tt, {| st_heap := alter f l h; st_trace := tr |}).
Proof. reflexivity. Qed.

Lemma alloc_run d h tr :
  alloc d {| st_heap := h; st_trace := tr |}
  = (Return (length h), {| st_heap := h ++ [d]; st_trace := tr |}).
Proof. reflexivity. Qed.

Lemma emit_run e h tr :
  emit e {| st_heap := h; st_trace := tr |}
  = (Return tt, {| st_heap := h; st_trace := tr ++ [e] |}).
Proof. reflexivity. Qed.

(** Stepping through a [bind] whose first computation returns. *)
Ltac mstep H :=
  erewrite run_bind_return; [ | solve [ apply H | eapply H; eauto ] ].

(** ** Keyword arguments *)

Lemma accepted_get_none (kw : pydict) k :
  keywords_accepted kw = true ->
  bool_decide (k ∈ session_request_parameters) = false ->
  Dict.get k kw = None.
Proof.
  unfold keywords_accepted, Dict.keys.
  induction kw as [|[k' v] kw IH]; simpl; intros Hacc Hk; [reflexivity|].
  apply andb_prop in Hacc as [Hk' Hacc].
  destruct (String.eqb_spec k k') as [->|_].
  - congruence.
  - now apply IH.
Qed.

Lemma accepted_find_none (kw : pydict) :
  keywords_accepted kw = true ->
  find (fun k => negb (bool_decide (k ∈ session_request_parameters)))
       (Dict.keys kw) = None.
Proof.
  unfold keywords_accepted, Dict.keys.
  induction kw as [|[k' v] kw IH]; simpl; intros Hacc; [reflexivity|].
  apply andb_prop in Hacc as [Hk' Hacc].
  rewrite Hk'. simpl. now apply IH.
Qed.

(** Keywords that are no parameters of [Session.request] do not clash
    with a dictionary of accepted keywords. *)
Lemma keywords_run (explicit star trailing : pydict) s :
  keywords_accepted star = true ->
  forallb (fun k => negb (bool_decide (k ∈ session_request_parameters)))
          (Dict.keys (explicit ++ trailing)) = true ->
  keywords explicit star trailing s
  = (Return (explicit ++ star ++ trailing), s).
Proof.
  intros Hacc Hout. unfold keywords.
  replace (find _ _) with (@None string); [reflexivity|].
  symmetry. revert Hout. generalize (Dict.keys (explicit ++ trailing)).
  intros ks. induction ks as [|k ks IH]; simpl; intros H; [reflexivity|].
  apply andb_prop in H as [Hk H]. apply negb_true_iff in Hk.
  rewrite (accepted_get_none _ _ Hacc Hk).
  rewrite bool_decide_eq_false_2 by (intros [? ?]; discriminate).
  now apply IH.
Qed.

(** ** The effect of [_send_request_to_api] *)

Section SendRun.

Variable session_request :
  heap -> string -> string -> bool -> pydict -> Response + transport_error.
Variable json_loads : Response -> option json.
Variable response_text : Response -> string.

Lemma timeout_default_run kwargs h tr :
  match Dict.get "timeout" (heap_get h kwargs) with
  | None | Some VNone => modify kwargs (Dict.set "timeout" (VInt 20))
  | Some _ => ret tt
  end {| st_heap := h; st_trace := tr |}
  = (Return tt, {| st_heap := send_heap kwargs h; st_trace := tr |}).
Proof.
  unfold send_heap.
  destruct (Dict.get "timeout" (heap_get h kwargs)) as [[]|]; reflexivity.
Qed.

Lemma session_request_call_run method url kw h tr :
  keywords_accepted kw = true ->
  session_request_call session_request method url kw
    {| st_heap := h; st_trace := tr |}
  = (match session_request h method url false kw with
     | inl r => Return r
     | inr e => Raise (RequestException e)
     end,
     {| st_heap := h; st_trace := tr ++ [EvRequest method url false kw] |}).
Proof.
  intros Hacc. unfold session_request_call.
  mstep keywords_run.
  rewrite (accepted_find_none _ Hacc).
  mstep emit_run.
  unfold bind, get_heap. simpl.
  destruct (session_request h method url false kw); reflexivity.
Qed.

Lemma success_decode_run r s :
  try_except_else (response_json json_loads r)
    (fun _ => ret (VStr (response_text r)))
    (fun j => ret (val_of_json j)) s
  = (Return (decoded json_loads response_text r), s).
Proof.
  unfold try_except_else, response_json, decoded.
  destruct (json_loads r); reflexivity.
Qed.

Lemma failure_decode_run r l h tr :
  match content r with
  | [] => ret tt
  | _ :: _ =>
      try_except_else
        (data <- response_json json_loads r ;;
         error <- json_get data "error" ;;
         error_stack_trace <- json_get data "errorStackTrace" ;;
         ret (error, error_stack_trace))
        (fun _ => ret tt)
        (fun found =>
           dict_update (VRef l)
             [("error", fst found); ("error_stack_trace", snd found)])
  end {| st_heap := h; st_trace := tr |}
  = (Return tt,
     {| st_heap := alter (Dict.update (error_details json_loads r)) l h;
        st_trace := tr |}).
Proof.
  assert (Hid : alter (Dict.update (@nil (string * val))) l h = h).
  { apply list_eq. intros i. destruct (decide (l = i)) as [<-|Hne].
    - rewrite list_lookup_alter_eq.
      match goal with |- _ <$> ?o = _ => destruct o end; reflexivity.
    - now rewrite list_lookup_alter_ne. }
  unfold error_details. destruct (content r) as [|b bs].
  - now rewrite Hid.
  - unfold try_except_else, response_json, bind.
    destruct (json_loads r) as [[]|]; simpl; rewrite ?Hid; reflexivity.
Qed.

(** The copy made for the log record is a dictionary object. *)
Lemma deepcopy_fuel_ref fuel l memo h :
  exists l', (deepcopy_fuel fuel (VRef l) memo h).1.1 = VRef l'.
Proof.
  destruct fuel; simpl.
  - destruct (memo !! l); eauto.
  - destruct (memo !! l); [eauto|].
    destruct (h !! l); [|eauto].
    destruct (fold_left _ _ _). eauto.
Qed.

Lemma deepcopy_run kwargs h tr :
  deepcopy (VRef kwargs) {| st_heap := h; st_trace := tr |}
  = (Return (VRef (log_loc kwargs h)),
     {| st_heap := (deepcopy_fuel (S (length h)) (VRef kwargs) ∅ h).2;
        st_trace := tr |}).
Proof.
  unfold deepcopy, log_loc, bind, get_heap. cbn [st_heap].
  destruct (deepcopy_fuel_ref (S (length h)) kwargs ∅ h) as [l' Hl'].
  destruct (deepcopy_fuel (S (length h)) (VRef kwargs) ∅ h) as [[y memo] h'].
  simpl in *. subst y. reflexivity.
Qed.

(** The state and the outcome of [_send_request_to_api], for keyword
    arguments that [Session.request] accepts. *)
Lemma send_run self method path rof kwargs h tr :
  let h1 := send_heap kwargs h in
  let kw := heap_get h1 kwargs in
  let url := build_url self path in
  let tr1 := tr ++ [EvLog DEBUG "Sending request to chief"
                      ([("method", VStr method); ("url", VStr url)] ++ kw);
                    EvRequest method url false kw] in
  keywords_accepted kw = true ->
  _send_request_to_api session_request json_loads response_text
    self method path rof kwargs {| st_heap := h; st_trace := tr |} =
  match session_request h1 method url false kw with
  | inr e => (Raise (RequestException e), {| st_heap := h1; st_trace := tr1 |})
  | inl r =>
      if ok r then
        (Return r,
         {| st_heap := h1;
            st_trace :=
              tr1 ++ [EvLog DEBUG "Request to chief succeeded"
                        ([("method", VStr method); ("url", VStr url)] ++ kw
                         ++ [("response",
                              decoded json_loads response_text r)])] |})
      else
        let h3 := failure_heap json_loads method path r kwargs h1 in
        (if rof then Raise (MLRunHTTPError r) else Return r,
         {| st_heap := h3;
            st_trace :=
              tr1 ++ [EvLog WARNING "Request to chief failed"
                        (heap_get h3 (log_loc kwargs h1))] |})
  end.
Proof.
  intros h1 kw url tr1 Hacc. unfold _send_request_to_api.
  mstep deref_run. mstep timeout_default_run. mstep deref_run.
  fold h1 kw url.
  mstep keywords_run. unfold logger_debug at 1. mstep emit_run.
  unfold bind at 1. rewrite session_request_call_run by assumption.
  rewrite app_nil_r, <- app_assoc. cbn [app]. fold tr1.
  destruct (session_request h1 method url false kw) as [r|e]; [|reflexivity].
  destruct (ok r) eqn:Hok; cbn [negb].
  - mstep success_decode_run. mstep deref_run. fold kw.
    mstep keywords_run. unfold logger_debug. mstep emit_run. reflexivity.
  - mstep deepcopy_run. unfold dict_update at 1. mstep modify_run.
    mstep failure_decode_run. unfold dict_items. mstep deref_run.
    unfold logger_warning. mstep emit_run.
    fold (failure_heap json_loads method path r kwargs h1).
    destruct rof.
    + unfold raise_for_status. rewrite Hok. reflexivity.
    + reflexivity.
Qed.

End SendRun.

(** ** The effect of request translation *)

Lemma heap_get_app_new (h : heap) d rest :
  heap_get (h ++ d :: rest) (length h) = d.
Proof. unfold heap_get. now rewrite list_lookup_middle. Qed.

Lemma alter_app_new (f : pydict -> pydict) (h : heap) d rest :
  alter f (length h) (h ++ d :: rest) = h ++ f d :: rest.
Proof.
  replace (length h) with (length h + 0)%nat at 1 by lia.
  now rewrite alter_app_r.
Qed.

Lemma heap_get_app_empty (h : heap) l : heap_get (h ++ [[]]) l = heap_get h l.
Proof.
  unfold heap_get. destruct (decide (l < length h)%nat) as [Hlt|Hge].
  - now rewrite lookup_app_l.
  - rewrite (lookup_ge_None_2 h) by lia.
    destruct (decide (l = length h)) as [->|Hne].
    + now rewrite list_lookup_middle.
    + rewrite lookup_ge_None_2; [reflexivity|].
      rewrite length_app. simpl. lia.
Qed.

Lemma body_truthy_app_empty (h : heap) body :
  body_truthy (h ++ [[]]) body = body_truthy h body.
Proof.
  destruct body as [b|]; [|reflexivity]. simpl.
  now rewrite heap_get_app_empty.
Qed.

Lemma data_run body h tr :
  match body with
  | Some b => if body_truthy (h ++ [[]]) body then ret b else alloc []
  | None => alloc []
  end {| st_heap := h ++ [[]]; st_trace := tr |}
  = (Return (data_loc h body),
     {| st_heap := h ++ [] :: data_objects h body; st_trace := tr |}).
Proof.
  assert (Hlen : length (h ++ [[]]) = S (length h))
    by (rewrite length_app; simpl; lia).
  unfold data_loc, data_objects. rewrite body_truthy_app_empty.
  destruct body as [b|].
  - destruct (body_truthy h (Some b)); [reflexivity|].
    rewrite alloc_run, Hlen, <- app_assoc. reflexivity.
  - rewrite alloc_run, Hlen, <- app_assoc. reflexivity.
Qed.

Lemma dict_of_entries_run entries h tr :
  dict_of_entries entries {| st_heap := h; st_trace := tr |}
  = (Return (length h),
     {| st_heap := h ++ [entries_dict entries]; st_trace := tr |}).
Proof. reflexivity. Qed.

Lemma resolve_run request body h tr :
  _resolve_request_kwargs_from_request request body
    {| st_heap := h; st_trace := tr |}
  = (Return (length h),
     {| st_heap := h ++ request_objects h request body; st_trace := tr |}).
Proof.
  unfold _resolve_request_kwargs_from_request.
  mstep alloc_run. destruct request as [rq|]; [|reflexivity].
  unfold bind at 1, get_heap at 1. cbn [st_heap].
  mstep data_run. mstep modify_run. rewrite alter_app_new.
  mstep dict_of_entries_run. mstep modify_run.
  rewrite <- app_assoc, <- app_comm_cons, alter_app_new.
  mstep dict_of_entries_run. mstep modify_run.
  rewrite <- app_assoc, <- app_comm_cons, alter_app_new.
  mstep modify_run. rewrite alter_app_new.
  unfold ret. do 2 f_equal. f_equal.
  unfold request_objects, request_kwargs_items, data_objects.
  rewrite !length_app.
  destruct (body_truthy h body); cbn.
  - rewrite Nat.add_0_r.
    now replace (S (length h + 1)) with (length h + 2)%nat by lia.
  - replace (length h + 1 + 1)%nat with (length h + 2)%nat by lia.
    now replace (S (length h + 2)) with (length h + 3)%nat by lia.
Qed.

(** ** The effect of [_proxy_request_to_chief] *)

Lemma convert_run r s :
  _convert_requests_response_to_fastapi_response r s = (translated r, s).
Proof.
  unfold _convert_requests_response_to_fastapi_response, translated,
    bind, lift_result.
  destruct (dict_of_cid (headers r)); reflexivity.
Qed.

Lemma request_objects_head h request body :
  exists rest,
    request_objects h request body
    = request_kwargs_items h request body :: rest.
Proof. destruct request; simpl; eauto. Qed.

Lemma request_kwargs_accepted h request body :
  keywords_accepted (request_kwargs_items h request body) = true.
Proof. destruct request; reflexivity. Qed.

Lemma sent_kwargs_accepted h request body :
  keywords_accepted (sent_kwargs h request body) = true.
Proof. destruct request; reflexivity. Qed.

Lemma send_heap_proxy h request body :
  send_heap (proxy_kwargs h request body)
    (h ++ request_objects h request body
       ++ [request_kwargs_items h request body])
  = sent_heap h request body.
Proof.
  unfold send_heap, sent_heap, proxy_kwargs, sent_kwargs.
  rewrite !app_assoc, <- length_app, heap_get_app_new, alter_app_new.
  destruct request; reflexivity.
Qed.

Lemma heap_get_sent h request body :
  heap_get (sent_heap h request body) (proxy_kwargs h request body)
  = sent_kwargs h request body.
Proof.
  unfold sent_heap, proxy_kwargs.
  now rewrite !app_assoc, <- length_app, heap_get_app_new.
Qed.

Section ProxyRun.

Variable session_request :
  heap -> string -> string -> bool -> pydict -> Response + transport_error.
Variable json_loads : Response -> option json.
Variable response_text : Response -> string.

(** The state and the outcome of [_proxy_request_to_chief]. *)
Lemma proxy_run self method path request body rof h tr :
  let h1 := sent_heap h request body in
  let kw := sent_kwargs h request body in
  let kwargs := proxy_kwargs h request body in
  let url := build_url self path in
  let tr1 := tr ++ [EvLog DEBUG "Sending request to chief"
                      ([("method", VStr method); ("url", VStr url)] ++ kw);
                    EvRequest method url false kw] in
  _proxy_request_to_chief session_request json_loads response_text
    self method path request body rof {| st_heap := h; st_trace := tr |} =
  match session_request h1 method url false kw with
  | inr e => (Raise (RequestException e), {| st_heap := h1; st_trace := tr1 |})
  | inl r =>
      if ok r then
        (translated r,
         {| st_heap := h1;
            st_trace :=
              tr1 ++ [EvLog DEBUG "Request to chief succeeded"
                        ([("method", VStr method); ("url", VStr url)] ++ kw
                         ++ [("response",
                              decoded json_loads response_text r)])] |})
      else
        let h3 := failure_heap json_loads method path r kwargs h1 in
        (if rof then Raise (MLRunHTTPError r) else translated r,
         {| st_heap := h3;
            st_trace :=
              tr1 ++ [EvLog WARNING "Request to chief failed"
                        (heap_get h3 (log_loc kwargs h1))] |})
  end.
Proof.
  intros h1 kw kwargs url tr1. unfold _proxy_request_to_chief.
  assert (Hget : heap_get (h ++ request_objects h request body) (length h)
                 = request_kwargs_items h request body).
  { destruct (request_objects_head h request body) as [rest ->].
    apply heap_get_app_new. }
  mstep resolve_run. mstep deref_run. rewrite Hget.
  erewrite run_bind_return;
    [|apply keywords_run; [apply request_kwargs_accepted|reflexivity]].
  mstep alloc_run.
  rewrite <- app_assoc, length_app. fold (proxy_kwargs h request body).
  subst kwargs. unfold bind.
  rewrite send_run; rewrite send_heap_proxy, heap_get_sent;
    [|apply sent_kwargs_accepted].
  fold h1 kw url tr1.
  destruct (session_request h1 method url false kw) as [r|e]; [|reflexivity].
  destruct (ok r), rof; cbv beta iota zeta;
    try reflexivity; now rewrite convert_run.
Qed.

End ProxyRun.

(** ** Strings: trailing slashes and double slashes *)

Lemma endswith_drop_last c s :
  Str.endswith_char c s = true -> s = Str.drop_last s +:+ String c "".
Proof.
  induction s as [|a s IH]; [discriminate|].
  destruct s as [|b s].
  - simpl. intros H. apply Ascii.eqb_eq in H. now subst.
  - intros H.
    change (Str.drop_last (String a (String b s)))
      with (String a (Str.drop_last (String b s))).
    transitivity (String a (Str.drop_last (String b s) +:+ String c ""));
      [f_equal; now apply IH | reflexivity].
Qed.

Lemma startswith_app c a b :
  Str.startswith_char c (a +:+ b)
  = match a with
    | "" => Str.startswith_char c b
    | _ => Str.startswith_char c a
    end.
Proof. now destruct a. Qed.

Lemma endswith_cons c a s :
  s <> "" -> Str.endswith_char c (String a s) = Str.endswith_char c s.
Proof. now destruct s. Qed.

Lemma has_double_slash_app a b :
  Str.has_double_slash (a +:+ b)
  = Str.has_double_slash a
    || (Str.endswith_char "/" a && Str.startswith_char "/" b)
    || Str.has_double_slash b.
Proof.
  induction a as [|x a IH]; [reflexivity|].
  change (String x a +:+ b) with (String x (a +:+ b)).
  cbn [Str.has_double_slash]. rewrite IH, startswith_app.
  destruct a as [|y a].
  - cbn. destruct (Ascii.eqb x "/"), (Str.startswith_char "/" b);
      reflexivity.
  - rewrite (endswith_cons "/" x (String y a)) by (intros E; discriminate E).
    destruct (Ascii.eqb x "/" && Str.startswith_char "/" (String y a));
      reflexivity.
Qed.

(** The configured URL ends with two slashes. *)
Lemma api_url_trailing_slash conf :
  Str.endswith_char "/" (_api_url (Client_init conf))
  = Str.endswith_char "/" (chief_api_url conf)
    && Str.endswith_char "/" (Str.drop_last (chief_api_url conf)).
Proof.
  simpl. now destruct (Str.endswith_char "/" (chief_api_url conf)) eqn:E.
Qed.

(** The double slashes of the URL are those of its parts and of the
    junctions between them. *)
Lemma build_url_double_slash self path :
  let v := api_base_version (_conf self) in
  Str.has_double_slash (build_url self path)
  = Str.has_double_slash (_api_url self)
    || Str.endswith_char "/" (_api_url self)
    || match v with "" => true | _ => Str.startswith_char "/" v end
    || Str.has_double_slash v
    || Str.endswith_char "/" v
    || Str.startswith_char "/" path
    || Str.has_double_slash path.
Proof.
  intros v. unfold build_url. fold v.
  rewrite has_double_slash_app.
  change (Str.startswith_char "/" ("/api/" +:+ v +:+ "/" +:+ path)) with true.
  change (Str.has_double_slash ("/api/" +:+ v +:+ "/" +:+ path))
    with (Str.startswith_char "/" (v +:+ "/" +:+ path)
          || Str.has_double_slash (v +:+ "/" +:+ path)).
  rewrite startswith_app, has_double_slash_app.
  change (Str.startswith_char "/" ("/" +:+ path)) with true.
  change (Str.has_double_slash ("/" +:+ path))
    with (Str.startswith_char "/" path || Str.has_double_slash path).
  rewrite !andb_true_r.
  destruct v; cbn [Str.startswith_char];
    repeat match goal with
           | |- context [?b || true] => rewrite (orb_true_r b)
           | |- context [true || ?b] => rewrite (orb_true_l b)
           end; try reflexivity.
  now rewrite !orb_assoc.
Qed.

(** ** The URL of the outbound request *)

Lemma requests_sent_app tr1 tr2 :
  requests_sent (tr1 ++ tr2) = requests_sent tr1 ++ requests_sent tr2.
Proof. apply omap_app. Qed.

Lemma requests_sent_log tr lvl msg kw :
  requests_sent (tr ++ [EvLog lvl msg kw]) = requests_sent tr.
Proof. rewrite requests_sent_app. apply app_nil_r. Qed.

Section Url.

Variable session_request :
  heap -> string -> string -> bool -> pydict -> Response + transport_error.
Variable json_loads : Response -> option json.
Variable response_text : Response -> string.

(** Whatever the chief answers, one request is sent, to the URL built from
    the path. *)
Lemma forward_requests_sent self method path request body rof s :
  requests_sent (trace_after
    (_proxy_request_to_chief session_request json_loads response_text
       self method path request body rof) s)
  = requests_sent (st_trace s) ++ [(method, build_url self path)].
Proof.
  destruct s as [h tr]. unfold trace_after.
  rewrite proxy_run. cbv zeta.
  destruct (session_request _ _ _ _ _) as [r|e];
    [destruct (ok r)|]; cbn [snd st_trace];
    rewrite ?requests_sent_log; rewrite requests_sent_app; reflexivity.
Qed.

(** Every named operation is the generic forward at its method and path,
    with [raise_on_failure] left at [False]. *)
Lemma call_forward self op :
  call session_request json_loads response_text self op
  = _proxy_request_to_chief session_request json_loads
      response_text self (op_method op) (op_path op) (op_request op)
      (op_body op) false.
Proof. destruct op; reflexivity. Qed.

End Url.

(** C1 (amended).  For every configuration, every call of the generic
    forward and every named operation sends exactly one request, to the
    URL [{api_url}/api/{version}/{path}], where [api_url] is the configured
    base URL with exactly one trailing slash removed if it ends with one.
    When the configured base URL does not end with two slashes, [api_url]
    ends with none, and the URL has a double slash only where [api_url]
    itself or the appended [/api/{version}/{path}] has one.  When it does
    end with two slashes, [api_url] still ends with one and the URL has a
    double slash before [api]. *)
Theorem forward_url_one_slash_stripped
    session_request json_loads response_text conf method path request body
    rof op s :
  let self := Client_init conf in
  let forward :=
    _proxy_request_to_chief session_request json_loads response_text in
  let suffix := "/api/" +:+ api_base_version conf +:+ "/" +:+ path in
  let two_slashes :=
    Str.endswith_char "/" (chief_api_url conf)
    && Str.endswith_char "/" (Str.drop_last (chief_api_url conf)) in
  requests_sent (trace_after (forward self method path request body rof) s)
  = requests_sent (st_trace s) ++ [(method, _api_url self +:+ suffix)]
  /\ requests_sent
       (trace_after
          (call session_request json_loads response_text self op) s)
     = requests_sent (st_trace s)
       ++ [(op_method op,
            _api_url self +:+ "/api/" +:+ api_base_version conf +:+ "/"
            +:+ op_path op)]
  /\ (if Str.endswith_char "/" (chief_api_url conf)
      then chief_api_url conf = _api_url self +:+ "/"
      else chief_api_url conf = _api_url self)
  /\ (two_slashes = false ->
      Str.endswith_char "/" (_api_url self) = false
      /\ Str.has_double_slash (_api_url self +:+ suffix)
         = Str.has_double_slash (_api_url self)
           || Str.has_double_slash suffix)
  /\ (two_slashes = true ->
      Str.endswith_char "/" (_api_url self) = true
      /\ Str.has_double_slash (_api_url self +:+ suffix) = true).
Proof.
  intros self forward suffix two_slashes.
  assert (Hend : Str.endswith_char "/" (_api_url self) = two_slashes)
    by apply api_url_trailing_slash.
  split; [apply forward_requests_sent|].
  split; [rewrite call_forward; apply forward_requests_sent|].
  split.
  { simpl. destruct (Str.endswith_char "/" (chief_api_url conf)) eqn:E.
    - now apply endswith_drop_last.
    - reflexivity. }
  split; intros Htwo; rewrite Htwo in Hend; (split; [exact Hend|]);
    rewrite has_double_slash_app, Hend.
  - now rewrite orb_false_r.
  - simpl. now rewrite orb_true_r.
Qed.

Lemma forward_url_one_slash_stripped_witness :
  Str.endswith_char "/" (chief_api_url Sample.conf)
  && Str.endswith_char "/" (Str.drop_last (chief_api_url Sample.conf))
  = false
  /\ Str.endswith_char "/" (_api_url (Client_init Sample.conf)) = false
  /\ Str.has_double_slash
       (_api_url (Client_init Sample.conf) +:+ "/api/v1/submit_job")
     = Str.has_double_slash (_api_url (Client_init Sample.conf))
       || Str.has_double_slash "/api/v1/submit_job".
Proof.
  split; [reflexivity|].
  exact (proj1 (proj2 (proj2 (proj2
    (forward_url_one_slash_stripped
       (Sample.answers Sample.r200) Sample.json_loads Sample.response_text
       Sample.conf "POST" "submit_job" None None false
       (OpTriggerMigrations None) Sample.state)))) eq_refl).
Defined.

(** C1 as stated fails: with a configured base URL that ends with two
    slashes, one slash is left after construction, and the request goes to
    a URL with a double slash before [api]. *)
Lemma forward_url_double_slash :
  requests_sent
    (trace_after
       (submit_job (Sample.answers Sample.r200) Sample.json_loads
          Sample.response_text (Client_init Sample.conf_two_slashes)
          Sample.request None)
       Sample.state)
  = [("POST", "http://" +:+ "chief:8080//api/v1/submit_job")]
  /\ Str.has_double_slash "chief:8080//api/v1/submit_job" = true
  /\ Str.endswith_char "/" (_api_url (Client_init Sample.conf_two_slashes))
     = true.
Proof. repeat split; vm_compute; reflexivity. Qed.

(** ** Response translation *)

Lemma dict_get_app_none {V} k (d1 d2 : list (string * V)) :
  Dict.get k d1 = None -> Dict.get k (d1 ++ d2) = Dict.get k d2.
Proof.
  induction d1 as [|[k' v] d1 IH]; simpl; [reflexivity|].
  destruct (String.eqb k k'); [discriminate|exact IH].
Qed.

Lemma dict_set_absent {V} k (v : V) d :
  Dict.get k d = None -> Dict.set k v d = d ++ [(k, v)].
Proof.
  induction d as [|[k' v'] d IH]; simpl; [reflexivity|].
  destruct (String.eqb k k'); [discriminate|].
  intros H. now rewrite IH.
Qed.

(** The cased keys of a well-formed store are pairwise distinct, because
    their lowered forms are. *)
Lemma cid_items_get_none (pre : CaseInsensitiveDict) k :
  CID.wf pre = true ->
  Dict.get (Str.lower k) pre = None ->
  Dict.get k (CID.items pre) = None.
Proof.
  induction pre as [|[lk [k' v]] pre IH]; simpl; [reflexivity|].
  intros Hwf Hget.
  apply andb_prop in Hwf as [Hwf Hrest]. apply andb_prop in Hwf as [Hlk _].
  apply String.eqb_eq in Hlk. subst lk.
  destruct (String.eqb_spec k k') as [->|Hne].
  - now rewrite String.eqb_refl in Hget.
  - destruct (String.eqb (Str.lower k) (Str.lower k')); [discriminate|].
    now apply IH.
Qed.

Lemma cid_wf_app_inv (pre suf : CaseInsensitiveDict) :
  CID.wf (pre ++ suf) = true -> CID.wf pre = true /\ CID.wf suf = true.
Proof.
  induction pre as [|[lk [k v]] pre IH]; simpl; [now split|].
  intros H. apply andb_prop in H as [H Hrest].
  apply andb_prop in H as [Hlk Hget].
  destruct (IH Hrest) as [Hpre Hsuf]. split; [|assumption].
  rewrite Hlk, Hpre. simpl.
  destruct (Dict.get lk pre) eqn:E; [|reflexivity].
  exfalso. clear -E Hget.
  induction pre as [|[k' e'] pre IH]; simpl in *; [discriminate|].
  destruct (String.eqb lk k'); [discriminate|]. now apply IH.
Qed.

Lemma cid_wf_middle_absent (pre suf : CaseInsensitiveDict) lk e :
  CID.wf (pre ++ (lk, e) :: suf) = true -> Dict.get lk pre = None.
Proof.
  induction pre as [|[lk' [k' v']] pre IH]; simpl; [reflexivity|].
  intros H. apply andb_prop in H as [H Hrest].
  apply andb_prop in H as [_ Hget].
  destruct (String.eqb_spec lk lk') as [->|_].
  - rewrite dict_get_app_none in Hget.
    + simpl in Hget. now rewrite String.eqb_refl in Hget.
    + destruct (Dict.get lk' pre) eqn:E; [|reflexivity].
      exfalso. clear -E Hget.
      induction pre as [|[k'' e''] pre IH]; simpl in *; [discriminate|].
      destruct (String.eqb lk' k''); [discriminate|]. now apply IH.
  - now apply IH.
Qed.

Lemma dict_of_cid_keys_wf (pre suf : CaseInsensitiveDict) :
  CID.wf (pre ++ suf) = true ->
  dict_of_cid_keys (CID.iter suf) (pre ++ suf) (CID.items pre)
  = Return (CID.items (pre ++ suf)).
Proof.
  revert pre. induction suf as [|[lk [k v]] suf IH]; intros pre Hwf.
  - simpl. now rewrite app_nil_r.
  - pose proof (cid_wf_middle_absent _ _ _ _ Hwf) as Habs.
    destruct (cid_wf_app_inv _ _ Hwf) as [Hpre Hsuf].
    simpl in Hsuf. apply andb_prop in Hsuf as [Hsuf _].
    apply andb_prop in Hsuf as [Hlk _]. apply String.eqb_eq in Hlk.
    subst lk. cbn [CID.iter map fst snd dict_of_cid_keys].
    unfold CID.getitem. rewrite dict_get_app_none by assumption.
    simpl Dict.get. rewrite String.eqb_refl. cbn [option_map snd].
    rewrite dict_set_absent by now apply cid_items_get_none.
    change (CID.items pre ++ [(k, v)])
      with (CID.items pre ++ CID.items [(Str.lower k, (k, v))]).
    unfold CID.items at 1 2. rewrite <- map_app.
    fold (CID.items (pre ++ [(Str.lower k, (k, v))])).
    replace (pre ++ (Str.lower k, (k, v)) :: suf)
      with ((pre ++ [(Str.lower k, (k, v))]) ++ suf)
      by now rewrite <- app_assoc.
    apply IH. now rewrite <- app_assoc.
Qed.

(** [dict(headers)] of a well-formed case-insensitive dictionary has the
    entries of the dictionary, with the keys as they were set. *)
Lemma dict_of_cid_wf (store : CaseInsensitiveDict) :
  CID.wf store = true -> dict_of_cid store = Return (CID.items store).
Proof. intros Hwf. exact (dict_of_cid_keys_wf [] store Hwf). Qed.

(** [__setitem__] keeps the store well formed. *)
Lemma cid_setitem_wf key value (store : CaseInsensitiveDict) :
  CID.wf store = true -> CID.wf (CID.setitem key value store) = true.
Proof.
  unfold CID.setitem. remember (Str.lower key) as lk eqn:Hlk.
  assert (Hget : forall k' (d : CaseInsensitiveDict),
             k' <> lk -> Dict.get k' (Dict.set lk (key, value) d)
                         = Dict.get k' d).
  { intros k' d Hne. induction d as [|[k'' e''] d IHd]; simpl.
    - destruct (String.eqb_spec k' lk); [contradiction|reflexivity].
    - destruct (String.eqb_spec lk k'') as [->|Hne'']; simpl.
      + destruct (String.eqb_spec k' k''); [contradiction|reflexivity].
      + destruct (String.eqb k' k''); [reflexivity|exact IHd]. }
  induction store as [|[lk' [k' v']] store IH]; simpl.
  - intros _. now rewrite <- Hlk, String.eqb_refl.
  - intros H. apply andb_prop in H as [H Hrest].
    apply andb_prop in H as [Hlk' Hnone].
    destruct (String.eqb_spec lk lk') as [E|Hne]; simpl.
    + now rewrite <- Hlk, E, String.eqb_refl, Hnone, Hrest.
    + rewrite Hlk', (IH Hrest), Hget by congruence.
      now rewrite ?andb_true_r, ?andb_true_l.
Qed.

(** ** The content type of the translated response *)

Lemma header_values_app name l1 l2 :
  header_values name (l1 ++ l2)
  = header_values name l1 ++ header_values name l2.
Proof. apply omap_app. Qed.

Lemma header_values_cons name k v lines :
  header_values name ((k, v) :: lines)
  = if String.eqb k name then v :: header_values name lines
    else header_values name lines.
Proof.
  unfold header_values. simpl. now destruct (String.eqb k name).
Qed.

Lemma header_values_absent name lines :
  existsb (String.eqb name) (map fst lines) = false ->
  header_values name lines = [].
Proof.
  induction lines as [|[k v] lines IH]; [reflexivity|].
  cbn [map fst existsb]. intros H.
  apply orb_false_elim in H as [Hk H].
  rewrite header_values_cons, String.eqb_sym, Hk. now apply IH.
Qed.

Lemma header_values_present name lines :
  existsb (String.eqb name) (map fst lines) = true ->
  header_values name lines <> [].
Proof.
  induction lines as [|[k v] lines IH]; [discriminate|].
  cbn [map fst existsb]. intros H.
  rewrite header_values_cons, String.eqb_sym.
  destruct (String.eqb name k); [discriminate|].
  now apply IH.
Qed.

(** The response declares the content type of its headers when they have
    one, and the media type otherwise. *)
Lemma content_type_sent_eq resp :
  content_type_sent resp
  = match header_values "content-type"
            (map (fun kv => (Str.lower (fst kv), snd kv))
               (resp_headers resp)) with
    | [] => [if String.prefix "text/" (resp_media_type resp)
             then resp_media_type resp +:+ "; charset=utf-8"
             else resp_media_type resp]
    | declared => declared
    end.
Proof.
  unfold content_type_sent, init_headers. cbv zeta.
  destruct (existsb _ _) eqn:E; cbn [negb].
  - apply header_values_present in E.
    now destruct (header_values _ _).
  - rewrite header_values_app, (header_values_absent _ _ E). reflexivity.
Qed.

(** In a well-formed case-insensitive dictionary the lines of a lowered
    name are the one value stored under it. *)
Lemma cid_items_header_values store name :
  CID.wf store = true ->
  header_values name
    (map (fun kv => (Str.lower (fst kv), snd kv)) (CID.items store))
  = match Dict.get name store with
    | Some (_, v) => [v]
    | None => []
    end.
Proof.
  induction store as [|[lk [k v]] store IH]; [reflexivity|].
  cbn [CID.wf]. intros Hwf.
  apply andb_prop in Hwf as [Hwf Hrest].
  apply andb_prop in Hwf as [Hlk Hfresh].
  apply String.eqb_eq in Hlk. subst lk.
  change (map (fun kv => (Str.lower (fst kv), snd kv))
            (CID.items ((Str.lower k, (k, v)) :: store)))
    with ((Str.lower k, v)
          :: map (fun kv => (Str.lower (fst kv), snd kv)) (CID.items store)).
  rewrite header_values_cons. cbn [Dict.get].
  rewrite (String.eqb_sym name).
  destruct (String.eqb (Str.lower k) name) eqn:E.
  - apply String.eqb_eq in E. subst name.
    rewrite (IH Hrest).
    now destruct (Dict.get (Str.lower k) store).
  - now apply IH.
Qed.

(** C2 (amended).  For every response of the chief (whose case-insensitive
    header dictionary is well formed, as every dictionary built by its own
    [__setitem__] is), the translated response has the same body bytes and
    the same status code, its headers are the entries of the
    case-insensitive dictionary as a plain dictionary, and its media type
    argument is [application/json].  The content type that the response
    declares is the one the chief declared when it declared one, and
    [application/json] only when it declared none. *)
Theorem convert_copies_response (chief_response : Response) (s : State) :
  CID.wf (headers chief_response) = true ->
  let response :=
    {| resp_content := content chief_response;
       resp_status_code := status_code chief_response;
       resp_headers := CID.items (headers chief_response);
       resp_media_type := "application/json" |} in
  _convert_requests_response_to_fastapi_response chief_response s
  = (Return response, s)
  /\ content_type_sent response
     = match CID.getitem "Content-Type" (headers chief_response) with
       | Some declared => [declared]
       | None => ["application/json"]
       end.
Proof.
  intros Hwf response. split.
  - rewrite convert_run. unfold translated.
    now rewrite dict_of_cid_wf.
  - rewrite content_type_sent_eq. subst response. cbn [resp_headers].
    rewrite (cid_items_header_values _ _ Hwf).
    unfold CID.getitem.
    change (Str.lower "Content-Type") with "content-type".
    now destruct (Dict.get "content-type" (headers chief_response))
      as [[k v]|].
Qed.

Lemma convert_copies_response_witness :
  CID.wf (headers Sample.r204) = true
  /\ _convert_requests_response_to_fastapi_response Sample.r204 Sample.state
     = (Return {| resp_content := [];
                  resp_status_code := 204;
                  resp_headers := [];
                  resp_media_type := "application/json" |}, Sample.state)
  /\ content_type_sent
       {| resp_content := [];
          resp_status_code := 204;
          resp_headers := [];
          resp_media_type := "application/json" |}
     = ["application/json"].
Proof.
  split; [reflexivity|].
  exact (convert_copies_response Sample.r204 Sample.state eq_refl).
Defined.

(** The content type is not forced: when the chief declares [text/plain],
    the translated response carries this header, and [text/plain] is the
    content type it declares, not [application/json]. *)
Lemma convert_keeps_declared_content_type :
  exists response,
    _convert_requests_response_to_fastapi_response Sample.r200 Sample.state
    = (Return response, Sample.state)
    /\ resp_content response = Sample.a1
    /\ resp_status_code response = 200
    /\ resp_headers response = [("X", "y"); ("Content-Type", "text/plain")]
    /\ resp_media_type response = "application/json"
    /\ content_type_sent response = ["text/plain"]
    /\ content_type_sent response <> ["application/json"].
Proof.
  eexists. split; [reflexivity|].
  repeat split. intros H. discriminate H.
Qed.

(** ** Outcome and trace of a forward *)

Lemma events_since_app tr new : events_since tr (tr ++ new) = new.
Proof. apply drop_app_length. Qed.

Section Forward.

Variable session_request :
  heap -> string -> string -> bool -> pydict -> Response + transport_error.
Variable json_loads : Response -> option json.
Variable response_text : Response -> string.

(** The outcome of a forward is decided by the answer of the chief, the
    status of the response and [raise_on_failure]. *)
Lemma forward_outcome self method path request body rof s :
  outcome
    (_proxy_request_to_chief session_request json_loads response_text
       self method path request body rof) s
  = match session_request (sent_heap (st_heap s) request body) method
            (build_url self path) false
            (sent_kwargs (st_heap s) request body) with
    | inr e => Raise (RequestException e)
    | inl r =>
        if negb (ok r) && rof then Raise (MLRunHTTPError r)
        else translated r
    end.
Proof.
  destruct s as [h tr]. unfold outcome. rewrite proxy_run.
  cbv zeta. cbn [st_heap].
  destruct (session_request _ _ _ _ _) as [r|e]; [|reflexivity].
  destruct (ok r), rof; reflexivity.
Qed.

(** The events that a forward adds to the trace. *)
Lemma forward_events self method path request body rof s :
  let kw := sent_kwargs (st_heap s) request body in
  let h1 := sent_heap (st_heap s) request body in
  let url := build_url self path in
  events_since (st_trace s)
    (trace_after
      (_proxy_request_to_chief session_request json_loads response_text
         self method path request body rof) s)
  = [EvLog DEBUG "Sending request to chief"
       ([("method", VStr method); ("url", VStr url)] ++ kw);
     EvRequest method url false kw]
    ++ match session_request h1 method url false kw with
       | inr e => []
       | inl r =>
           if ok r then
             [EvLog DEBUG "Request to chief succeeded"
                ([("method", VStr method); ("url", VStr url)] ++ kw
                 ++ [("response", decoded json_loads response_text r)])]
           else
             [EvLog WARNING "Request to chief failed"
                (heap_get
                   (failure_heap json_loads method path r
                      (proxy_kwargs (st_heap s) request body) h1)
                   (log_loc (proxy_kwargs (st_heap s) request body) h1))]
       end.
Proof.
  destruct s as [h tr]. cbv zeta. cbn [st_heap st_trace].
  unfold trace_after. rewrite proxy_run. cbv zeta.
  destruct (session_request _ _ _ _ _) as [r|e];
    [destruct (ok r)|]; cbn [snd st_trace];
    rewrite <- ?app_assoc, events_since_app; reflexivity.
Qed.

End Forward.

(** ** Failure policy *)

(** C3.  When the chief answers the forwarded call with a failing response
    (one whose [ok] is false): with [raise_on_failure] true the forward
    raises the domain error made from that response and returns nothing;
    with [raise_on_failure] false it returns the translated response, with
    the status code and the body bytes of the chief's response. *)
Theorem forward_failure_policy
    session_request json_loads response_text self method path request body
    s r :
  (forall h kw,
      session_request h method (build_url self path) false kw = inl r) ->
  ok r = false ->
  CID.wf (headers r) = true ->
  let forward :=
    _proxy_request_to_chief session_request json_loads response_text in
  outcome (forward self method path request body true) s
  = Raise (MLRunHTTPError r)
  /\ exists resp,
       outcome (forward self method path request body false) s = Return resp
       /\ resp_status_code resp = status_code r
       /\ resp_content resp = content r.
Proof.
  intros Hsr Hok Hwf forward. unfold forward.
  rewrite !forward_outcome, !Hsr, Hok. cbn [negb andb]. split; [reflexivity|].
  unfold translated. rewrite dict_of_cid_wf by assumption.
  eexists. repeat split.
Qed.

Lemma forward_failure_policy_witness :
  outcome
    (_proxy_request_to_chief (Sample.answers Sample.r500) Sample.json_loads
       Sample.response_text (Client_init Sample.conf) "POST" "submit_job"
       (Some Sample.request) (Some 0%nat) true) Sample.state
  = Raise (MLRunHTTPError Sample.r500)
  /\ exists resp,
       outcome
         (_proxy_request_to_chief (Sample.answers Sample.r500)
            Sample.json_loads Sample.response_text (Client_init Sample.conf)
            "POST" "submit_job" (Some Sample.request) (Some 0%nat) false)
         Sample.state = Return resp
       /\ resp_status_code resp = 500
       /\ resp_content resp = Sample.boom.
Proof.
  exact (forward_failure_policy (Sample.answers Sample.r500)
           Sample.json_loads Sample.response_text (Client_init Sample.conf)
           "POST" "submit_job" (Some Sample.request) (Some 0%nat)
           Sample.state Sample.r500
           (fun _ _ => eq_refl) eq_refl eq_refl).
Defined.

(** ** Which branch is taken *)

Lemma ok_false_iff r :
  ok r = false <-> 400 <= status_code r < 600.
Proof.
  unfold ok. rewrite negb_false_iff, andb_true_iff, Z.leb_le, Z.ltb_lt.
  reflexivity.
Qed.

(** C4 (amended).  When the chief answers the forwarded call with a
    response, the forward takes the failure branch (the warning) exactly
    when [response.ok] is false, that is when the status is in 400..599,
    and the success branch (the debug record of the decoded body) exactly
    when [response.ok] is true, that is for every other status; a status
    below 400 that is not 2xx takes the success branch. *)
Theorem forward_branch_by_ok
    session_request json_loads response_text self method path request body
    rof s r :
  (forall h kw,
      session_request h method (build_url self path) false kw = inl r) ->
  let new :=
    events_since (st_trace s)
      (trace_after
         (_proxy_request_to_chief session_request json_loads response_text
            self method path request body rof) s) in
  logged_failure new = negb (ok r)
  /\ logged_success new = ok r
  /\ (ok r = false <-> 400 <= status_code r < 600)
  /\ (status_code r < 400 -> logged_success new = true).
Proof.
  intros Hsr new. subst new. rewrite forward_events. cbv zeta. rewrite Hsr.
  assert (Hlt : status_code r < 400 -> ok r = true).
  { intros Hlt. destruct (ok r) eqn:E; [reflexivity|].
    apply ok_false_iff in E. lia. }
  destruct (ok r) eqn:Hok.
  - split; [reflexivity|]. split; [reflexivity|].
    split; [|intros _; reflexivity].
    split; [discriminate|].
    intros Hx. apply ok_false_iff in Hx. congruence.
  - split; [reflexivity|]. split; [reflexivity|].
    split; [|intros Hx; specialize (Hlt Hx); discriminate].
    split; [intros _; now apply ok_false_iff|reflexivity].
Qed.

Lemma forward_branch_by_ok_witness :
  let new :=
    events_since (st_trace Sample.state)
      (trace_after
         (_proxy_request_to_chief (Sample.answers Sample.r304)
            Sample.json_loads Sample.response_text (Client_init Sample.conf)
            "GET" "background-tasks/t" None None false) Sample.state) in
  logged_failure new = negb (ok Sample.r304)
  /\ logged_success new = ok Sample.r304
  /\ (ok Sample.r304 = false <-> 400 <= status_code Sample.r304 < 600)
  /\ (status_code Sample.r304 < 400 -> logged_success new = true).
Proof.
  exact (forward_branch_by_ok (Sample.answers Sample.r304)
           Sample.json_loads Sample.response_text (Client_init Sample.conf)
           "GET" "background-tasks/t" None None false Sample.state
           Sample.r304 (fun _ _ => eq_refl)).
Defined.

(** C4 as stated fails: a response with status 304 is not 2xx, and the
    forward takes the success branch, not the failure branch. *)
Lemma forward_304_takes_success_branch :
  let new :=
    events_since (st_trace Sample.state)
      (trace_after
         (_proxy_request_to_chief (Sample.answers Sample.r304)
            Sample.json_loads Sample.response_text (Client_init Sample.conf)
            "GET" "background-tasks/t" None None false) Sample.state) in
  non_2xx (status_code Sample.r304) = true
  /\ logged_failure new = false
  /\ logged_success new = true.
Proof. repeat split; vm_compute; reflexivity. Qed.

(** ** Decoding is for the log only *)

(** C5.  Whether the body can be decoded has no effect on what a forward
    returns: with any two JSON decoders and text decoders the outcome is
    the same.  [_send_request_to_api] hands back the response of the chief
    as it is, on the success branch and on the failure branch, however the
    decoding goes, and the forward returns its translation, which has the
    status and the content of that response. *)
Theorem decoding_never_changes_result
    session_request json_loads response_text json_loads' response_text'
    self method path request body rof s :
  outcome
    (_proxy_request_to_chief session_request json_loads response_text
       self method path request body rof) s
  = outcome
      (_proxy_request_to_chief session_request json_loads' response_text'
         self method path request body rof) s
  /\ outcome
       (_proxy_request_to_chief session_request json_loads response_text
          self method path request body rof) s
     = match session_request (sent_heap (st_heap s) request body) method
               (build_url self path) false
               (sent_kwargs (st_heap s) request body) with
       | inr e => Raise (RequestException e)
       | inl r =>
           if negb (ok r) && rof then Raise (MLRunHTTPError r)
           else translated r
       end
  /\ forall kwargs h tr,
       keywords_accepted (heap_get (send_heap kwargs h) kwargs) = true ->
       outcome
         (_send_request_to_api session_request json_loads response_text
            self method path rof kwargs)
         {| st_heap := h; st_trace := tr |}
       = match session_request (send_heap kwargs h) method
                 (build_url self path) false
                 (heap_get (send_heap kwargs h) kwargs) with
         | inr e => Raise (RequestException e)
         | inl r =>
             if negb (ok r) && rof then Raise (MLRunHTTPError r)
             else Return r
         end.
Proof.
  split; [now rewrite !forward_outcome|].
  split; [apply forward_outcome|].
  intros kwargs h tr Hacc. unfold outcome. rewrite send_run by assumption.
  cbv zeta. destruct (session_request _ _ _ _ _) as [r|e]; [|reflexivity].
  destruct (ok r), rof; reflexivity.
Qed.

Lemma decoding_never_changes_result_witness :
  keywords_accepted
    (heap_get (send_heap 3%nat (Sample.store ++ [[]])) 3%nat) = true
  /\ outcome
       (_send_request_to_api (Sample.answers Sample.r204) Sample.json_fails
          Sample.response_text (Client_init Sample.conf) "POST"
          "operations/migrations" false 3%nat)
       {| st_heap := Sample.store ++ [[]]; st_trace := [] |}
     = Return Sample.r204.
Proof.
  split; [reflexivity|].
  exact (proj2 (proj2
    (decoding_never_changes_result (Sample.answers Sample.r204)
       Sample.json_fails Sample.response_text Sample.json_loads
       Sample.response_text (Client_init Sample.conf) "POST"
       "operations/migrations" None None false Sample.state))
    3%nat (Sample.store ++ [[]]) [] eq_refl).
Defined.

(** ** Forwarding without an inbound request *)

Section NoRequest.

Variable session_request :
  heap -> string -> string -> bool -> pydict -> Response + transport_error.
Variable json_loads : Response -> option json.
Variable response_text : Response -> string.

Lemma forward_trace self method path request body rof s :
  trace_after
    (_proxy_request_to_chief session_request json_loads response_text
       self method path request body rof) s
  = st_trace s
    ++ events_since (st_trace s)
         (trace_after
           (_proxy_request_to_chief session_request json_loads response_text
              self method path request body rof) s).
Proof.
  destruct s as [h tr]. unfold trace_after. rewrite proxy_run.
  cbv zeta. cbn [st_trace].
  destruct (session_request _ _ _ _ _) as [r|e];
    [destruct (ok r)|]; cbn [snd st_trace];
    rewrite <- ?app_assoc, events_since_app; reflexivity.
Qed.

Lemma session_calls_app tr1 tr2 :
  session_calls (tr1 ++ tr2) = session_calls tr1 ++ session_calls tr2.
Proof. apply List.filter_app. Qed.

(** The one call of [Session.request] that a forward makes. *)
Lemma forward_session_calls self method path request body rof s :
  session_calls (trace_after
    (_proxy_request_to_chief session_request json_loads response_text
       self method path request body rof) s)
  = session_calls (st_trace s)
    ++ [EvRequest method (build_url self path) false
          (sent_kwargs (st_heap s) request body)].
Proof.
  rewrite forward_trace, session_calls_app. f_equal.
  rewrite forward_events. cbv zeta.
  destruct (session_request _ _ _ _ _) as [r|e];
    [destruct (ok r)|]; reflexivity.
Qed.

End NoRequest.

(** C6.  Without an inbound request, request translation returns a new
    empty dictionary whatever the body, and the forward calls
    [Session.request] with the default timeout as its only keyword
    argument: no headers, no query parameters, no cookies and no data. *)
Theorem no_request_no_transport_arguments
    session_request json_loads response_text self method path body rof s :
  let sent := [("timeout", VInt 20)] in
  _resolve_request_kwargs_from_request None body s
  = (Return (length (st_heap s)),
     {| st_heap := st_heap s ++ [[]]; st_trace := st_trace s |})
  /\ session_calls
       (trace_after
          (_proxy_request_to_chief session_request json_loads response_text
             self method path None body rof) s)
     = session_calls (st_trace s)
       ++ [EvRequest method (build_url self path) false sent]
  /\ Dict.get "headers" sent = None
  /\ Dict.get "params" sent = None
  /\ Dict.get "cookies" sent = None
  /\ Dict.get "data" sent = None.
Proof.
  intros sent. split; [destruct s; apply resolve_run|].
  split; [apply forward_session_calls|]. now repeat split.
Qed.

(** C9.  A body given without an inbound request is dropped: the forward
    runs exactly as it does without a body, and the keyword arguments of
    its call of [Session.request] have no ["data"] and do not refer to the
    body. *)
Theorem body_without_request_is_dropped
    session_request json_loads response_text self method path b rof s :
  let forward :=
    _proxy_request_to_chief session_request json_loads response_text in
  forward self method path None (Some b) rof s
  = forward self method path None None rof s
  /\ exists kw,
       session_calls
         (trace_after (forward self method path None (Some b) rof) s)
       = session_calls (st_trace s)
         ++ [EvRequest method (build_url self path) false kw]
       /\ Dict.get "data" kw = None
       /\ Forall (fun kv => snd kv <> VRef b) kw.
Proof.
  intros forward. split.
  - destruct s as [h tr]. unfold forward. now rewrite !proxy_run.
  - exists [("timeout", VInt 20)]. split; [apply forward_session_calls|].
    split; [reflexivity|]. repeat constructor. discriminate.
Qed.

(** ** Transport failures *)

(** C7 (amended).  When the transport fails and [Session.request] raises,
    the forward raises that same error, whatever [raise_on_failure] is: no
    response is returned, no domain error is made, and nothing but the
    sending is logged, in particular no warning. *)
Theorem transport_error_propagates
    session_request json_loads response_text self method path request body
    rof s e :
  (forall h kw,
      session_request h method (build_url self path) false kw = inr e) ->
  let forward :=
    _proxy_request_to_chief session_request json_loads response_text in
  outcome (forward self method path request body rof) s
  = Raise (RequestException e)
  /\ events_since (st_trace s)
       (trace_after (forward self method path request body rof) s)
     = [EvLog DEBUG "Sending request to chief"
          ([("method", VStr method); ("url", VStr (build_url self path))]
           ++ sent_kwargs (st_heap s) request body);
        EvRequest method (build_url self path) false
          (sent_kwargs (st_heap s) request body)]
  /\ logged_failure
       (events_since (st_trace s)
          (trace_after (forward self method path request body rof) s))
     = false.
Proof.
  intros Hsr forward. unfold forward.
  rewrite forward_outcome, forward_events. cbv zeta. rewrite !Hsr.
  repeat split.
Qed.

Lemma transport_error_propagates_witness :
  outcome
    (_proxy_request_to_chief Sample.unreachable Sample.json_loads
       Sample.response_text (Client_init Sample.conf) "POST"
       "operations/migrations" None None true) Sample.state
  = Raise (RequestException ConnectionError).
Proof.
  exact (proj1
    (transport_error_propagates Sample.unreachable Sample.json_loads
       Sample.response_text (Client_init Sample.conf) "POST"
       "operations/migrations" None None true Sample.state ConnectionError
       (fun _ _ => eq_refl))).
Defined.

(** C7 as stated fails: with a chief that cannot be reached and
    [raise_on_failure] false, the forward returns no response at all, so
    none with a gateway status; the caller gets the connection error of the
    transport, and no warning is logged. *)
Lemma unreachable_chief_raises_connection_error :
  let run :=
    _proxy_request_to_chief Sample.unreachable Sample.json_loads
      Sample.response_text (Client_init Sample.conf) "POST"
      "operations/migrations" None None false in
  ~ (exists resp,
        outcome run Sample.state = Return resp
        /\ gateway_status (resp_status_code resp) = true)
  /\ outcome run Sample.state = Raise (RequestException ConnectionError)
  /\ logged_failure (trace_after run Sample.state) = false.
Proof.
  split; [|split; vm_compute; reflexivity].
  intros [resp [H _]]. vm_compute in H. discriminate H.
Qed.

(** The translation can only fail with the [KeyError] of a header lookup. *)
Lemma dict_of_cid_raises store e :
  dict_of_cid store = Raise e -> exists k, e = KeyError k.
Proof.
  unfold dict_of_cid. generalize (CID.iter store) (@nil (string * string)).
  intros ks. induction ks as [|k ks IH]; simpl; intros acc H.
  - discriminate.
  - destruct (CID.getitem k store); [now apply IH in H|].
    injection H as <-. eauto.
Qed.

(** ** The named operations *)

(** C10.  Every named operation is the generic forward at its method and
    path with [raise_on_failure] false.  None ever raises the domain
    error; when the chief answers with a response, failing or not, the
    operation returns its translation. *)
Theorem named_operations_pass_through
    session_request json_loads response_text self op s :
  let run := call session_request json_loads response_text self op in
  run
  = _proxy_request_to_chief session_request json_loads response_text
      self (op_method op) (op_path op) (op_request op) (op_body op) false
  /\ (forall r, outcome run s <> Raise (MLRunHTTPError r))
  /\ (forall r,
         (forall h kw,
             session_request h (op_method op)
               (build_url self (op_path op)) false kw = inl r) ->
         CID.wf (headers r) = true ->
         outcome run s
         = Return {| resp_content := content r;
                     resp_status_code := status_code r;
                     resp_headers := CID.items (headers r);
                     resp_media_type := "application/json" |}).
Proof.
  intros run. subst run. split; [apply call_forward|].
  rewrite call_forward, forward_outcome. split.
  - intros r. destruct (session_request _ _ _ _ _) as [r'|e];
      [|discriminate].
    rewrite andb_false_r. unfold translated.
    destruct (dict_of_cid (headers r')) as [hdrs|e] eqn:E; [discriminate|].
    apply dict_of_cid_raises in E as [k ->]. discriminate.
  - intros r Hsr Hwf. rewrite Hsr, andb_false_r. unfold translated.
    now rewrite dict_of_cid_wf.
Qed.

Lemma named_operations_pass_through_witness :
  outcome
    (call (Sample.answers Sample.r500) Sample.json_loads
       Sample.response_text (Client_init Sample.conf)
       (OpDeleteProject "p" Sample.request)) Sample.state
  = Return {| resp_content := Sample.boom;
              resp_status_code := 500;
              resp_headers := [("Content-Type", "application/json")];
              resp_media_type := "application/json" |}.
Proof.
  exact (proj2 (proj2
    (named_operations_pass_through (Sample.answers Sample.r500)
       Sample.json_loads Sample.response_text (Client_init Sample.conf)
       (OpDeleteProject "p" Sample.request) Sample.state))
    Sample.r500 (fun _ _ => eq_refl) eq_refl).
Defined.

(** ** [copy.deepcopy] leaves the existing objects alone *)

Lemma frames_refl h : frames h h.
Proof. split; [lia|reflexivity]. Qed.

Lemma copy_item_eq rec target memo h k v :
  copy_item rec target (memo, h) (k, v)
  = ((rec v memo h).1.2,
     alter (Dict.set k (rec v memo h).1.1) target (rec v memo h).2).
Proof.
  unfold copy_item. cbn [fst snd].
  now destruct (rec v memo h) as [[v' memo'] h'].
Qed.

Lemma copy_loop_frame rec target :
  (forall x memo h, frames h (rec x memo h).2) ->
  forall d memo h,
    (length h <= length (fold_left (copy_item rec target) d (memo, h)).2)%nat
    /\ forall j, (j < length h)%nat -> j <> target ->
         (fold_left (copy_item rec target) d (memo, h)).2 !! j = h !! j.
Proof.
  intros Hrec d. induction d as [|[k v] d IH]; intros memo h.
  - split; [simpl; lia|reflexivity].
  - cbn [fold_left]. rewrite copy_item_eq.
    destruct (Hrec v memo h) as [Hlen Hsame].
    destruct (IH (rec v memo h).1.2
                (alter (Dict.set k (rec v memo h).1.1) target
                   (rec v memo h).2)) as [Hlen' Hsame'].
    rewrite length_alter in Hlen', Hsame'.
    split; [lia|]. intros j Hj Hne.
    rewrite Hsame' by (lia || assumption).
    rewrite list_lookup_alter_ne by congruence. now apply Hsame.
Qed.

Lemma deepcopy_fuel_frames fuel :
  forall x memo h, frames h (deepcopy_fuel fuel x memo h).2.
Proof.
  induction fuel as [|n IH]; intros x memo h.
  - destruct x; try apply frames_refl. simpl.
    destruct (memo !! l); apply frames_refl.
  - destruct x; try apply frames_refl. simpl.
    destruct (memo !! l); [apply frames_refl|].
    destruct (h !! l) as [d|]; [|apply frames_refl].
    pose proof (copy_loop_frame (deepcopy_fuel n) (length h) IH d
                  (<[l:=length h]> memo) (h ++ [[]])) as [Hlen Hsame].
    destruct (fold_left _ _ _) as [memo2 h2]. simpl in *.
    rewrite length_app in Hlen, Hsame. simpl in *.
    split; [lia|]. intros j Hj.
    rewrite Hsame by lia. now apply lookup_app_l.
Qed.

Lemma deepcopy_fuel_alloc n l memo (h : heap) d :
  memo !! l = None -> h !! l = Some d ->
  deepcopy_fuel (S n) (VRef l) memo h
  = (VRef (length h),
     (fold_left (copy_item (deepcopy_fuel n) (length h)) d
        (<[l:=length h]> memo, h ++ [[]])).1,
     (fold_left (copy_item (deepcopy_fuel n) (length h)) d
        (<[l:=length h]> memo, h ++ [[]])).2).
Proof.
  intros Hm Hh. cbn [deepcopy_fuel]. rewrite Hm, Hh.
  now destruct (fold_left _ _ _).
Qed.

Lemma rename_val_mono (memo memo' : gmap loc loc) v :
  memo ⊆ memo' ->
  (forall l, v = VRef l -> is_Some (memo !! l)) ->
  rename_val memo' v = rename_val memo v.
Proof.
  intros Hsub Hcov. destruct v as [| | | | |l]; try reflexivity.
  destruct (Hcov l eq_refl) as [l' Hl']. simpl.
  now rewrite Hl', (lookup_weaken _ _ _ _ Hl' Hsub).
Qed.

Lemma covered_mono (memo memo' : gmap loc loc) d :
  memo ⊆ memo' -> covered memo d -> covered memo' d.
Proof.
  intros Hsub Hcov. unfold covered. eapply Forall_impl; [exact Hcov|].
  intros kv H l Hl. destruct (H l Hl) as [l' Hl'].
  exists l'. eapply lookup_weaken; eassumption.
Qed.

Lemma rename_mono (memo memo' : gmap loc loc) d :
  memo ⊆ memo' -> covered memo d -> rename memo' d = rename memo d.
Proof.
  intros Hsub Hcov. unfold rename. induction Hcov as [|kv d Hkv _ IH].
  - reflexivity.
  - simpl. rewrite IH. now rewrite (rename_val_mono _ _ _ Hsub Hkv).
Qed.

Lemma dict_update_snoc {V} (other : list (string * V)) k v acc :
  Dict.update (other ++ [(k, v)]) acc = Dict.set k v (Dict.update other acc).
Proof. unfold Dict.update. now rewrite fold_left_app. Qed.

Lemma closed_heap_lookup (h : heap) l d :
  closed_heap h = true -> h !! l = Some d ->
  closed_dict (length h) d = true.
Proof.
  unfold closed_heap. rewrite forallb_forall. intros H Hl.
  apply H. apply list_elem_of_In. eapply list_elem_of_lookup_2. eassumption.
Qed.

Lemma memo_size_lt (memo : gmap loc loc) n l :
  (forall j j', memo !! j = Some j' -> (j < n)%nat) ->
  memo !! l = None -> (l < n)%nat -> (size memo < n)%nat.
Proof.
  intros Hrange Hnone Hl.
  assert (Hsub : {[l]} ∪ dom memo ⊆ (set_seq 0 n : gset nat)).
  { intros j Hj. apply elem_of_set_seq. apply elem_of_union in Hj as [Hj|Hj].
    - apply elem_of_singleton in Hj. lia.
    - apply elem_of_dom in Hj as [j' Hj']. apply Hrange in Hj'. lia. }
  apply subseteq_size in Hsub.
  rewrite size_union, size_singleton, size_set_seq, size_dom in Hsub.
  - lia.
  - intros j Hj1 Hj2. apply elem_of_singleton in Hj1. subst j.
    apply elem_of_dom in Hj2 as [j' Hj']. congruence.
Qed.

Section DeepCopySpec.

Variable h0 : heap.
Hypothesis Hclosed : closed_heap h0 = true.

Lemma copied_mono memo memo' (h h' : heap) l l' :
  memo ⊆ memo' -> h' !! l' = h !! l' ->
  copied h0 memo h l l' -> copied h0 memo' h' l l'.
Proof.
  intros Hsub Hsame (d & Hd & Hcov & Hcopy). exists d.
  split; [assumption|]. split; [now apply (covered_mono memo)|].
  now rewrite Hsame, (rename_mono memo).
Qed.

(** One turn of the copy loop after the other. *)
Lemma copy_loop_spec n (pending : gset loc) l l' :
  (forall x memo h,
      copy_inv h0 pending memo h ->
      closed_val (length h0) x = true ->
      (length h0 < n + size memo)%nat ->
      copy_inv h0 pending (deepcopy_fuel n x memo h).1.2
        (deepcopy_fuel n x memo h).2
      /\ memo ⊆ (deepcopy_fuel n x memo h).1.2
      /\ (deepcopy_fuel n x memo h).1.1
         = rename_val (deepcopy_fuel n x memo h).1.2 x
      /\ forall j, x = VRef j ->
           is_Some ((deepcopy_fuel n x memo h).1.2 !! j)) ->
  l ∈ pending ->
  forall d2 d1 memo h,
    copy_inv h0 pending memo h ->
    memo !! l = Some l' ->
    closed_dict (length h0) d2 = true ->
    covered memo d1 ->
    h !! l' = Some (Dict.update (rename memo d1) []) ->
    (length h0 < n + size memo)%nat ->
    let out := fold_left (copy_item (deepcopy_fuel n) l') d2 (memo, h) in
    copy_inv h0 pending out.1 out.2
    /\ memo ⊆ out.1
    /\ covered out.1 (d1 ++ d2)
    /\ out.2 !! l' = Some (Dict.update (rename out.1 (d1 ++ d2)) []).
Proof.
  intros Hrec Hpending d2.
  induction d2 as [|[k v] d2 IH];
    intros d1 memo h Hinv Hl Hcl Hcov Hcopy Hfuel out; subst out.
  - simpl. rewrite app_nil_r.
    split; [exact Hinv|]. split; [reflexivity|]. now split.
  - cbn [fold_left]. rewrite copy_item_eq.
    simpl in Hcl. apply andb_prop in Hcl as [Hv Hcl].
    destruct (Hrec v memo h Hinv Hv Hfuel) as (Hinv' & Hsub & Hv' & Hvcov).
    pose proof (deepcopy_fuel_frames n v memo h) as [Hlen Hsame].
    set (v' := (deepcopy_fuel n v memo h).1.1) in *.
    set (memo' := (deepcopy_fuel n v memo h).1.2) in *.
    set (h' := (deepcopy_fuel n v memo h).2) in *.
    assert (Hl' : memo' !! l = Some l') by (eapply lookup_weaken; eassumption).
    destruct (inv_range _ _ _ _ Hinv _ _ Hl) as [Hl0 Hlh].
    assert (Hcov' : covered memo' (d1 ++ [(k, v)])).
    { apply Forall_app. split; [now apply (covered_mono memo)|].
      constructor; [exact Hvcov|constructor]. }
    edestruct (IH (d1 ++ [(k, v)]) memo'
                 (alter (Dict.set k v') l' h')) as (H1 & H2 & H3 & H4).
    + destruct Hinv' as [[Hf1 Hf2] Hr Hi Hd]. constructor.
      * split; [rewrite length_alter; lia|]. intros j Hj.
        rewrite list_lookup_alter_ne by lia. now apply Hf2.
      * intros j j' Hj. rewrite length_alter. now apply Hr.
      * exact Hi.
      * intros j j' Hj Hjp. apply (copied_mono memo' _ h');
          [reflexivity| |now apply Hd].
        apply list_lookup_alter_ne. intros ->.
        apply Hjp. now rewrite (Hi _ _ _ Hj Hl').
    + exact Hl'.
    + exact Hcl.
    + exact Hcov'.
    + rewrite list_lookup_alter_eq, Hsame, Hcopy by assumption. simpl.
      f_equal. unfold rename at 2. rewrite map_app. simpl.
      rewrite dict_update_snoc. fold (rename memo' d1).
      now rewrite (rename_mono memo memo'), Hv'.
    + apply map_subseteq_size in Hsub. lia.
    + rewrite <- app_assoc in H3, H4. simpl in H3, H4.
      split; [exact H1|]. split; [now transitivity memo'|]. now split.
Qed.


Lemma val_ref_or_atom x : (exists l, x = VRef l) \/ (forall l, x <> VRef l).
Proof. destruct x; eauto; right; discriminate. Qed.

Lemma deepcopy_fuel_atom n x memo (h : heap) :
  (forall l, x <> VRef l) -> deepcopy_fuel n x memo h = (x, memo, h).
Proof. intros Hx. destruct n, x; try reflexivity; now destruct (Hx l). Qed.

Lemma deepcopy_fuel_memo n l l' memo (h : heap) :
  memo !! l = Some l' -> deepcopy_fuel n (VRef l) memo h = (VRef l', memo, h).
Proof. intros Hl. destruct n; simpl; now rewrite Hl. Qed.

(** The deep copy of a value of a closed store: with enough fuel, the
    copy of every object met on the way is finished, and the value is
    renamed to its copy. *)
Lemma deepcopy_fuel_spec n :
  forall (pending : gset loc) x memo h,
    copy_inv h0 pending memo h ->
    closed_val (length h0) x = true ->
    (length h0 < n + size memo)%nat ->
    copy_inv h0 pending (deepcopy_fuel n x memo h).1.2
      (deepcopy_fuel n x memo h).2
    /\ memo ⊆ (deepcopy_fuel n x memo h).1.2
    /\ (deepcopy_fuel n x memo h).1.1
       = rename_val (deepcopy_fuel n x memo h).1.2 x
    /\ forall j, x = VRef j ->
         is_Some ((deepcopy_fuel n x memo h).1.2 !! j).
Proof.
  induction n as [|n IHn]; intros pending x memo h Hinv Hx Hfuel.
  all: destruct (val_ref_or_atom x) as [[l ->]|Hatom];
    [|rewrite deepcopy_fuel_atom by assumption;
      cbn [fst snd]; split; [exact Hinv|]; split; [reflexivity|];
      split; [destruct x; try reflexivity; now destruct (Hatom l)|];
      intros j ->; now destruct (Hatom j)].
  all: simpl in Hx; apply bool_decide_eq_true in Hx.
  all: destruct (memo !! l) as [l'|] eqn:Hl;
    [rewrite (deepcopy_fuel_memo _ _ _ _ _ Hl); cbn [fst snd];
     split; [exact Hinv|]; split; [reflexivity|];
     split; [simpl; now rewrite Hl|];
     intros j [= <-]; eauto|].
  - exfalso.
    assert (size memo < length h0)%nat; [|lia].
    apply (memo_size_lt memo (length h0) l); [|assumption..].
    intros j j' Hj. now apply (inv_range _ _ _ _ Hinv) in Hj.
  - destruct Hinv as [[Hf1 Hf2] Hr Hi Hd].
    destruct (lookup_lt_is_Some_2 h0 l Hx) as [d Hd0].
    assert (Hhl : h !! l = Some d) by now rewrite Hf2.
    rewrite (deepcopy_fuel_alloc _ _ _ _ _ Hl Hhl). cbn [fst snd].
    set (l' := length h).
    assert (Hin : l ∈ pending ∪ {[l]})
      by (apply elem_of_union_r, elem_of_singleton; reflexivity).
    edestruct (copy_loop_spec n (pending ∪ {[l]}) l l'
                 (IHn (pending ∪ {[l]})) Hin d []
                 (<[l:=l']> memo) (h ++ [[]]))
      as (Hinv' & Hsub & Hcov & Hcopy).
    + constructor.
      * split; [rewrite length_app; simpl; lia|]. intros j Hj.
        rewrite lookup_app_l by lia. now apply Hf2.
      * intros j j' Hj. rewrite length_app. simpl.
        apply lookup_insert_Some in Hj as [[<- <-]|[_ Hj]].
        -- subst l'. lia.
        -- apply Hr in Hj. lia.
      * intros j1 j2 j' Hj1 Hj2.
        apply lookup_insert_Some in Hj1 as [[<- <-]|[Hne1 Hj1]];
          apply lookup_insert_Some in Hj2 as [[<- E]|[Hne2 Hj2]];
          try reflexivity.
        -- apply Hr in Hj2. subst l'. lia.
        -- apply Hr in Hj1. subst l'. lia.
        -- eapply Hi; eassumption.
      * intros j j' Hj Hjp.
        apply lookup_insert_Some in Hj as [[<- <-]|[Hne Hj]];
          [contradiction|].
        apply (copied_mono memo _ h); [now apply insert_subseteq| |].
        -- apply lookup_app_l. now apply Hr in Hj.
        -- apply Hd; [assumption|].
           intros Hjp'. now apply Hjp, elem_of_union_l.
    + apply lookup_insert_eq.
    + now apply (closed_heap_lookup h0 l).
    + constructor.
    + subst l'. now rewrite list_lookup_middle.
    + rewrite map_size_insert_None by assumption. lia.
    + simpl in Hcov, Hcopy.
      set (out := fold_left _ _ _) in *.
      assert (Hl' : out.1 !! l = Some l').
      { eapply lookup_weaken; [apply lookup_insert_eq|exact Hsub]. }
      split; [|split; [|split]].
      * destruct Hinv' as [Hf' Hr' Hi' Hd']. constructor; try assumption.
        intros j j' Hj Hjp. destruct (decide (j = l)) as [->|Hne].
        -- assert (j' = l') as -> by congruence.
           exists d. now repeat split.
        -- apply Hd'; [assumption|]. intros Hjp'.
           apply elem_of_union in Hjp' as [Hjp'|Hjp']; [contradiction|].
           now apply elem_of_singleton in Hjp'.
      * transitivity (<[l:=l']> memo); [now apply insert_subseteq|exact Hsub].
      * simpl. now rewrite Hl'.
      * intros j [= <-]. eauto.
Qed.

End DeepCopySpec.

(** [copy.deepcopy] of an object of a closed store, from an empty memo:
    the copy is the next new object, and all the copies are finished. *)
Lemma deepcopy_closed_store (h0 : heap) l :
  closed_heap h0 = true -> (l < length h0)%nat ->
  exists memo,
    (deepcopy_fuel (S (length h0)) (VRef l) ∅ h0).1
    = (VRef (length h0), memo)
    /\ memo !! l = Some (length h0)
    /\ copy_inv h0 ∅ memo (deepcopy_fuel (S (length h0)) (VRef l) ∅ h0).2.
Proof.
  intros Hclosed Hl.
  destruct (deepcopy_fuel_spec h0 Hclosed (S (length h0)) ∅ (VRef l) ∅ h0)
    as (Hinv & _ & Hval & Hsome).
  - constructor; try (intros ? ? ? ?; now rewrite lookup_empty in * ).
    + apply frames_refl.
    + intros j j' Hj. now rewrite lookup_empty in Hj.
  - simpl. now apply bool_decide_eq_true.
  - rewrite map_size_empty. lia.
  - destruct (lookup_lt_is_Some_2 h0 l Hl) as [d Hd].
    rewrite (deepcopy_fuel_alloc _ _ _ _ _ (lookup_empty l) Hd) in *.
    cbn [fst snd] in *. eexists. split; [reflexivity|].
    split; [|exact Hinv].
    destruct (Hsome l eq_refl) as [l' Hl'].
    simpl in Hval. rewrite Hl' in Hval. congruence.
Qed.

(** ** Closed stores *)

Lemma closed_val_mono n m v :
  (n <= m)%nat -> closed_val n v = true -> closed_val m v = true.
Proof.
  intros Hle. destruct v; try reflexivity. simpl.
  rewrite !bool_decide_eq_true. lia.
Qed.

Lemma closed_dict_mono n m d :
  (n <= m)%nat -> closed_dict n d = true -> closed_dict m d = true.
Proof.
  intros Hle. unfold closed_dict. rewrite !forallb_forall.
  intros H kv Hkv. eapply closed_val_mono; eauto.
Qed.

Lemma closed_dict_set n k v d :
  closed_val n v = true -> closed_dict n d = true ->
  closed_dict n (Dict.set k v d) = true.
Proof.
  intros Hv. induction d as [|[k' v'] d IH]; simpl.
  - now rewrite Hv.
  - intros H. apply andb_prop in H as [Hv' Hd].
    destruct (String.eqb k k'); simpl.
    + now rewrite Hv, Hd.
    + now rewrite Hv', IH.
Qed.

Lemma closed_entries_dict n entries :
  closed_dict n (entries_dict entries) = true.
Proof.
  unfold entries_dict, Dict.update.
  assert (Hnil : closed_dict n [] = true) by reflexivity.
  revert Hnil. generalize (@nil (string * val)).
  induction entries as [|[k v] entries IH]; intros acc Hacc; simpl.
  - exact Hacc.
  - apply IH. now apply closed_dict_set.
Qed.

Lemma body_truthy_valid (h : heap) b :
  body_truthy h (Some b) = true -> (b < length h)%nat.
Proof.
  unfold body_truthy, heap_get. intros H.
  apply lookup_lt_is_Some. destruct (h !! b); [eauto|discriminate].
Qed.

Lemma sent_heap_length h request body :
  length (sent_heap h request body)
  = (length h + length (request_objects h request body) + 1)%nat.
Proof. unfold sent_heap. rewrite !length_app. simpl. lia. Qed.

Lemma request_kwargs_closed h request body :
  request_closed h request = true ->
  closed_dict (length (sent_heap h request body))
    (request_kwargs_items h request body) = true.
Proof.
  intros Hreq. rewrite sent_heap_length.
  destruct request as [rq|]; [|reflexivity].
  simpl in Hreq. apply bool_decide_eq_true in Hreq.
  unfold request_kwargs_items, request_objects, data_loc, data_objects.
  destruct body as [b|].
  - destruct (body_truthy h (Some b)) eqn:E.
    + apply body_truthy_valid in E. cbn.
      rewrite !bool_decide_eq_true_2 by lia. reflexivity.
    + cbn. rewrite !bool_decide_eq_true_2 by lia. reflexivity.
  - cbn. rewrite !bool_decide_eq_true_2 by lia. reflexivity.
Qed.

(** The store at the call of [Session.request] is closed when the store
    at the start of the forward is. *)
Lemma sent_heap_closed h request body :
  closed_heap h = true -> request_closed h request = true ->
  closed_heap (sent_heap h request body) = true.
Proof.
  intros Hh Hreq. pose proof (request_kwargs_closed h request body Hreq) as Hkw.
  pose proof (sent_heap_length h request body) as Hlen.
  unfold closed_heap. set (n := length (sent_heap h request body)) in *.
  unfold sent_heap. rewrite !forallb_app.
  apply andb_true_intro; split; [|apply andb_true_intro; split].
  - unfold closed_heap in Hh. rewrite forallb_forall in *.
    intros d Hd. apply (closed_dict_mono (length h)); [lia|now apply Hh].
  - destruct request as [rq|]; [|reflexivity].
    unfold request_objects. rewrite !forallb_app. cbn [forallb].
    rewrite Hkw, !closed_entries_dict. cbn.
    unfold data_objects. now destruct (body_truthy h body).
  - cbn [forallb]. unfold sent_kwargs, closed_dict. rewrite forallb_app.
    fold (closed_dict n (request_kwargs_items h request body)).
    now rewrite Hkw.
Qed.

(** ** The log record of the failure branch *)

Lemma lookup_sent h request body :
  sent_heap h request body !! proxy_kwargs h request body
  = Some (sent_kwargs h request body).
Proof.
  unfold sent_heap, proxy_kwargs.
  rewrite app_assoc, <- length_app. apply list_lookup_middle. reflexivity.
Qed.

Lemma proxy_kwargs_lt h request body :
  (proxy_kwargs h request body < length (sent_heap h request body))%nat.
Proof. rewrite sent_heap_length. unfold proxy_kwargs. lia. Qed.

Lemma log_record_items memo h request body method path :
  Dict.update [("method", VStr method); ("path", VStr path)]
    (Dict.update (rename memo (sent_kwargs h request body)) [])
  = rename memo (sent_kwargs h request body)
    ++ [("method", VStr method); ("path", VStr path)].
Proof. destruct request; reflexivity. Qed.

Section LogRecord.

Variable session_request :
  heap -> string -> string -> bool -> pydict -> Response + transport_error.
Variable json_loads : Response -> option json.
Variable response_text : Response -> string.

Lemma forward_heap_failure self method path request body rof s r :
  (forall h kw,
      session_request h method (build_url self path) false kw = inl r) ->
  ok r = false ->
  heap_after
    (_proxy_request_to_chief session_request json_loads response_text
       self method path request body rof) s
  = failure_heap json_loads method path r
      (proxy_kwargs (st_heap s) request body)
      (sent_heap (st_heap s) request body).
Proof.
  intros Hsr Hok. destruct s as [h tr]. unfold heap_after.
  rewrite proxy_run. cbv zeta. now rewrite Hsr, Hok.
Qed.

End LogRecord.

(** C8 (amended).  On the failure branch, in a store without dangling
    references, the keyword arguments given to the warning are a deep copy
    of the outbound keyword arguments with method and path added (and the
    error details when the body decodes to an object): the record is a new
    dictionary, and every dictionary reachable from the outbound keyword
    arguments is copied into a new object of its own, nothing being
    shared.  The outbound keyword arguments, and every object that
    existed before the logging step, are left unchanged. *)
Theorem log_kwargs_deep_copy
    session_request json_loads response_text self method path request body
    rof s r :
  (forall h kw,
      session_request h method (build_url self path) false kw = inl r) ->
  ok r = false ->
  closed_heap (st_heap s) = true ->
  request_closed (st_heap s) request = true ->
  let run :=
    _proxy_request_to_chief session_request json_loads response_text
      self method path request body rof in
  let h1 := sent_heap (st_heap s) request body in
  let kwargs := proxy_kwargs (st_heap s) request body in
  let kw := sent_kwargs (st_heap s) request body in
  let h3 := heap_after run s in
  exists memo log_kw,
    events_since (st_trace s) (trace_after run s)
    = [EvLog DEBUG "Sending request to chief"
         ([("method", VStr method); ("url", VStr (build_url self path))]
          ++ kw);
       EvRequest method (build_url self path) false kw;
       EvLog WARNING "Request to chief failed" log_kw]
    /\ log_kw
       = Dict.update (error_details json_loads r)
           (rename memo kw
            ++ [("method", VStr method); ("path", VStr path)])
    /\ memo !! kwargs = Some (length h1)
    /\ h3 !! length h1 = Some log_kw
    /\ covered memo kw
    /\ (forall l l',
           memo !! l = Some l' ->
           (l < length h1 <= l')%nat
           /\ exists d,
                h1 !! l = Some d /\ covered memo d
                /\ (l <> kwargs ->
                    h3 !! l' = Some (Dict.update (rename memo d) [])))
    /\ h1 !! kwargs = Some kw
    /\ (forall l, (l < length h1)%nat -> h3 !! l = h1 !! l).
Proof.
  intros Hsr Hok Hclosed Hreq run h1 kwargs kw h3.
  assert (Hcl1 : closed_heap h1 = true) by now apply sent_heap_closed.
  assert (Hlt : (kwargs < length h1)%nat) by apply proxy_kwargs_lt.
  assert (Hkw : h1 !! kwargs = Some kw) by apply lookup_sent.
  destruct (deepcopy_closed_store h1 kwargs Hcl1 Hlt)
    as (memo & Hout & Hmemo & [[Hf1 Hf2] Hr Hi Hd]).
  assert (Hloc : log_loc kwargs h1 = length h1).
  { unfold log_loc. now rewrite Hout. }
  assert (Hh3 : h3 = failure_heap json_loads method path r kwargs h1).
  { subst h3 run. now apply forward_heap_failure. }
  unfold failure_heap in Hh3. rewrite Hloc in Hh3.
  set (h2 := (deepcopy_fuel (S (length h1)) (VRef kwargs) ∅ h1).2) in *.
  destruct (Hd _ _ Hmemo (not_elem_of_empty _)) as (d & Hd1 & Hcov & Hcopy).
  assert (d = kw) as -> by congruence.
  assert (Hlog : h3 !! length h1
                 = Some (Dict.update (error_details json_loads r)
                           (rename memo kw
                            ++ [("method", VStr method);
                                ("path", VStr path)]))).
  { rewrite Hh3, !list_lookup_alter_eq, Hcopy.
    cbn [fmap option_fmap option_map]. subst kw.
    now rewrite log_record_items. }
  exists memo, (Dict.update (error_details json_loads r)
                  (rename memo kw
                   ++ [("method", VStr method); ("path", VStr path)])).
  split.
  { subst run. rewrite forward_events. cbv zeta. rewrite Hsr, Hok.
    fold kwargs h1 kw. rewrite Hloc.
    replace (failure_heap json_loads method path r kwargs h1) with h3
      by (rewrite Hh3; unfold failure_heap; now rewrite Hloc).
    unfold heap_get. now rewrite Hlog. }
  split; [reflexivity|]. split; [exact Hmemo|]. split; [exact Hlog|].
  split; [exact Hcov|]. split; [|split; [exact Hkw|]].
  - intros l l' Hl. destruct (Hr _ _ Hl) as [Hrange Hl'].
    split; [exact Hrange|].
    destruct (Hd _ _ Hl (not_elem_of_empty _)) as (d & Hd1' & Hcov' & Hcopy').
    exists d. split; [exact Hd1'|]. split; [exact Hcov'|].
    intros Hne. rewrite Hh3, !list_lookup_alter_ne; [exact Hcopy'| |].
    all: intros <-; apply Hne; eapply Hi; eassumption.
  - intros l Hl. rewrite Hh3, !list_lookup_alter_ne by lia. now apply Hf2.
Qed.

Lemma log_kwargs_deep_copy_witness :
  let run :=
    _proxy_request_to_chief (Sample.answers Sample.r500) Sample.json_loads
      Sample.response_text (Client_init Sample.conf) "POST" "submit_job"
      (Some Sample.request) (Some 0%nat) false in
  let h1 := sent_heap Sample.store (Some Sample.request) (Some 0%nat) in
  closed_heap (st_heap Sample.state) = true
  /\ request_closed (st_heap Sample.state) (Some Sample.request) = true
  /\ ok Sample.r500 = false
  /\ forall l, (l < length h1)%nat ->
       heap_after run Sample.state !! l = h1 !! l.
Proof.
  repeat (split; [reflexivity|]).
  destruct (log_kwargs_deep_copy (Sample.answers Sample.r500)
              Sample.json_loads Sample.response_text (Client_init Sample.conf)
              "POST" "submit_job" (Some Sample.request) (Some 0%nat) false
              Sample.state Sample.r500 (fun _ _ => eq_refl) eq_refl eq_refl
              eq_refl) as (memo & log_kw & H).
  exact (proj2 (proj2 (proj2 (proj2 (proj2 (proj2 (proj2 H))))))).
Defined.

(** C8 as stated fails: the dictionary given to the warning is no shallow
    copy of the outbound keyword arguments.  A shallow copy holds the very
    objects of the original; here the headers of the log record are a new
    object (10) with the contents of the headers that were sent (4). *)
Lemma log_kwargs_not_shallow :
  let run :=
    submit_job (Sample.answers Sample.r500) Sample.json_loads
      Sample.response_text (Client_init Sample.conf) Sample.request
      (Some 0%nat) in
  exists first sent logged,
    events_since [] (trace_after run Sample.state)
    = [first;
       EvRequest "POST" "http://chief:8080/api/v1/submit_job" false sent;
       EvLog WARNING "Request to chief failed" logged]
    /\ Dict.get "headers" sent = Some (VRef 4%nat)
    /\ Dict.get "headers" logged = Some (VRef 10%nat)
    /\ Dict.get "headers" logged <> Dict.get "headers" sent
    /\ heap_after run Sample.state !! 10%nat
       = heap_after run Sample.state !! 4%nat.
Proof.
  do 3 eexists. split; [vm_compute; reflexivity|].
  repeat split; try discriminate; vm_compute; reflexivity.
Qed.

(** * Further properties *)

(** ** Request translation with an inbound request *)

Lemma frames_app (h extra : heap) : frames h (h ++ extra).
Proof.
  split; [rewrite length_app; lia|]. intros j Hj. now apply lookup_app_l.
Qed.

Lemma request_objects_falsy h request body b :
  body_truthy h (Some b) = false ->
  body_truthy h body = false ->
  request_objects h request (Some b) = request_objects h request body.
Proof.
  intros Hb Hbody. destruct request as [rq|]; [|reflexivity].
  unfold request_objects, request_kwargs_items, data_objects, data_loc.
  rewrite Hb, Hbody. now destruct body.
Qed.

(** X1.  With an inbound request, request translation returns a new
    dictionary with the keys data, headers, params and cookies, in this
    order.  The headers and the query parameters are copied into new
    dictionaries; the cookies are the very dictionary of the request; the
    data are the very body when the body is a non-empty dictionary, and a
    new empty dictionary otherwise.  No object that existed before is
    changed, and nothing is logged or sent. *)
Theorem resolve_with_request_shares_body_and_cookies
    (rq : Request) (body : option loc) (s : State) :
  exists kwargs data hdrs params h',
    _resolve_request_kwargs_from_request (Some rq) body s
    = (Return kwargs, {| st_heap := h'; st_trace := st_trace s |})
    /\ h' !! kwargs
       = Some [("data", VRef data); ("headers", VRef hdrs);
               ("params", VRef params);
               ("cookies", VRef (req_cookies rq))]
    /\ h' !! hdrs = Some (entries_dict (req_headers rq))
    /\ h' !! params = Some (entries_dict (req_query_params rq))
    /\ (length (st_heap s) <= kwargs)%nat
    /\ (length (st_heap s) <= hdrs)%nat
    /\ (length (st_heap s) <= params)%nat
    /\ (if body_truthy (st_heap s) body then body = Some data
        else (length (st_heap s) <= data)%nat /\ h' !! data = Some [])
    /\ frames (st_heap s) h'.
Proof.
  destruct s as [h tr]. cbn [st_heap st_trace].
  exists (length h), (data_loc h body),
    (length h + 1 + length (data_objects h body))%nat,
    (S (length h + 1 + length (data_objects h body))),
    (h ++ request_objects h (Some rq) body).
  split; [apply resolve_run|].
  unfold request_objects, request_kwargs_items, data_objects, data_loc in *.
  destruct (body_truthy h body) eqn:Hb; cbn [app length] in *.
  - destruct body as [b|]; [|discriminate Hb].
    replace (length h + 1 + 0)%nat with (length h + 1)%nat by lia.
    split; [now rewrite list_lookup_middle|].
    split; [now rewrite lookup_app_r, Nat.add_comm, Nat.add_sub by lia|].
    split.
    { rewrite lookup_app_r by lia.
      now replace (S (length h + 1) - length h)%nat with 2%nat by lia. }
    repeat (split; [lia|]). split; [reflexivity|apply frames_app].
  - assert (Hd : match body with Some _ | None => S (length h) end
                 = S (length h)) by now destruct body.
    rewrite Hd.
    replace (length h + 1 + 1)%nat with (length h + 2)%nat by lia.
    split; [now rewrite list_lookup_middle|].
    split; [now rewrite lookup_app_r, Nat.add_comm, Nat.add_sub by lia|].
    split.
    { rewrite lookup_app_r by lia.
      now replace (S (length h + 2) - length h)%nat with 3%nat by lia. }
    repeat (split; [lia|]). split; [|apply frames_app]. split; [lia|].
    rewrite lookup_app_r by lia.
    now replace (S (length h) - length h)%nat with 1%nat by lia.
Qed.

(** X2.  A body that is an empty dictionary counts as no body at all: with
    it, request translation and the whole forward run exactly as they do
    with [None]. *)
Theorem empty_body_is_no_body
    session_request json_loads response_text self method path request b rof
    s :
  body_truthy (st_heap s) (Some b) = false ->
  _resolve_request_kwargs_from_request request (Some b) s
  = _resolve_request_kwargs_from_request request None s
  /\ _proxy_request_to_chief session_request json_loads response_text
       self method path request (Some b) rof s
     = _proxy_request_to_chief session_request json_loads response_text
         self method path request None rof s.
Proof.
  intros Hb. destruct s as [h tr]. cbn [st_heap] in *.
  assert (Hobj : request_objects h request (Some b)
                 = request_objects h request None)
    by now apply request_objects_falsy.
  assert (Hkw : request_kwargs_items h request (Some b)
                = request_kwargs_items h request None).
  { destruct request as [rq|]; [|reflexivity].
    unfold request_kwargs_items, data_objects, data_loc. now rewrite Hb. }
  split; [now rewrite !resolve_run, Hobj|].
  rewrite !proxy_run. cbv zeta.
  unfold sent_heap, sent_kwargs, proxy_kwargs. now rewrite Hobj, Hkw.
Qed.

Lemma empty_body_is_no_body_witness :
  let s := {| st_heap := Sample.store ++ [[]]; st_trace := [] |} in
  body_truthy (st_heap s) (Some 3%nat) = false
  /\ submit_job (Sample.answers Sample.r200) Sample.json_loads
       Sample.response_text (Client_init Sample.conf) Sample.request
       (Some 3%nat) s
     = submit_job (Sample.answers Sample.r200) Sample.json_loads
         Sample.response_text (Client_init Sample.conf) Sample.request
         None s.
Proof.
  split; [reflexivity|].
  exact (proj2
    (empty_body_is_no_body (Sample.answers Sample.r200) Sample.json_loads
       Sample.response_text (Client_init Sample.conf) "POST" "submit_job"
       (Some Sample.request) 3%nat false
       {| st_heap := Sample.store ++ [[]]; st_trace := [] |} eq_refl)).
Defined.

(** ** Keyword arguments of [_send_request_to_api] *)

Lemma dict_get_set_eq {V} k (v : V) d : Dict.get k (Dict.set k v d) = Some v.
Proof.
  induction d as [|[k' v'] d IH]; simpl.
  - now rewrite String.eqb_refl.
  - destruct (String.eqb k k') eqn:E; simpl; rewrite E; [reflexivity|exact IH].
Qed.

Lemma dict_get_set_ne {V} k k' (v : V) d :
  k' <> k -> Dict.get k' (Dict.set k v d) = Dict.get k' d.
Proof.
  intros Hne. induction d as [|[k'' v''] d IH]; simpl.
  - destruct (String.eqb_spec k' k); [contradiction|reflexivity].
  - destruct (String.eqb_spec k k'') as [->|Hk]; simpl.
    + destruct (String.eqb_spec k' k''); [contradiction|reflexivity].
    + destruct (String.eqb k' k''); [reflexivity|exact IH].
Qed.

Lemma accepted_set k v (d : pydict) :
  bool_decide (k ∈ session_request_parameters) = true ->
  keywords_accepted (Dict.set k v d) = keywords_accepted d.
Proof.
  intros Hk. unfold keywords_accepted, Dict.keys.
  induction d as [|[k' v'] d IH]; simpl.
  - now rewrite Hk.
  - destruct (String.eqb k k'); simpl; [reflexivity|now rewrite IH].
Qed.

(** The keyword arguments after the default timeout has been filled in. *)
Lemma send_heap_get kwargs (h : heap) kw0 :
  h !! kwargs = Some kw0 ->
  heap_get (send_heap kwargs h) kwargs
  = match Dict.get "timeout" kw0 with
    | None | Some VNone => Dict.set "timeout" (VInt 20) kw0
    | Some _ => kw0
    end.
Proof.
  intros Hkw.
  assert (Hset : heap_get (alter (Dict.set "timeout" (VInt 20)) kwargs h)
                   kwargs = Dict.set "timeout" (VInt 20) kw0).
  { unfold heap_get. now rewrite list_lookup_alter_eq, Hkw. }
  assert (Hsame : heap_get h kwargs = kw0)
    by (unfold heap_get; now rewrite Hkw).
  unfold send_heap. rewrite Hsame.
  destruct (Dict.get "timeout" kw0) as [[]|]; assumption.
Qed.

Lemma send_heap_accepted kwargs (h : heap) kw0 :
  h !! kwargs = Some kw0 ->
  keywords_accepted (heap_get (send_heap kwargs h) kwargs)
  = keywords_accepted kw0.
Proof.
  intros Hkw. rewrite (send_heap_get _ _ _ Hkw).
  destruct (Dict.get "timeout" kw0) as [[]|];
    reflexivity || now apply accepted_set.
Qed.

(** X3.  [_send_request_to_api] sends the keyword arguments it was given,
    with the timeout set to 20 when none was given or when it was [None];
    a timeout that was given is sent as it is, and no other keyword
    argument is changed. *)
Theorem send_fills_in_default_timeout
    session_request json_loads response_text self method path rof kwargs h
    tr kw0 :
  h !! kwargs = Some kw0 ->
  keywords_accepted kw0 = true ->
  exists kw,
    session_calls
      (trace_after
         (_send_request_to_api session_request json_loads response_text
            self method path rof kwargs)
         {| st_heap := h; st_trace := tr |})
    = session_calls tr ++ [EvRequest method (build_url self path) false kw]
    /\ Dict.get "timeout" kw
       = Some match Dict.get "timeout" kw0 with
              | None | Some VNone => VInt 20
              | Some t => t
              end
    /\ forall k, k <> "timeout" -> Dict.get k kw = Dict.get k kw0.
Proof.
  intros Hkw Hacc.
  exists (heap_get (send_heap kwargs h) kwargs). split.
  - unfold trace_after.
    rewrite send_run by now rewrite (send_heap_accepted _ _ _ Hkw).
    cbv zeta.
    destruct (session_request _ _ _ _ _) as [r|e];
      [destruct (ok r)|]; cbn [snd st_trace];
      rewrite !session_calls_app; cbn; now rewrite ?app_nil_r.
  - rewrite (send_heap_get _ _ _ Hkw).
    destruct (Dict.get "timeout" kw0) as [[]|] eqn:E;
      (split; [first [exact E | apply dict_get_set_eq]|]);
      intros k Hk; reflexivity || now apply dict_get_set_ne.
Qed.

Lemma send_fills_in_default_timeout_witness :
  let h := [[("timeout", VInt 5); ("params", VNone)]] in
  exists kw,
    session_calls
      (trace_after
         (_send_request_to_api (Sample.answers Sample.r200)
            Sample.json_loads Sample.response_text (Client_init Sample.conf)
            "GET" "background-tasks/t" false 0%nat)
         {| st_heap := h; st_trace := [] |})
    = [EvRequest "GET" "http://chief:8080/api/v1/background-tasks/t" false kw]
    /\ Dict.get "timeout" kw = Some (VInt 5).
Proof.
  destruct (send_fills_in_default_timeout (Sample.answers Sample.r200)
              Sample.json_loads Sample.response_text (Client_init Sample.conf)
              "GET" "background-tasks/t" false 0%nat
              [[("timeout", VInt 5); ("params", VNone)]] []
              [("timeout", VInt 5); ("params", VNone)] eq_refl eq_refl)
    as (kw & Hcalls & Ht & _).
  exists kw. split; assumption.
Defined.

Lemma run_raise_bind {A B} e (f : A -> M B) :
  (x <- raise e ;; f x) = raise e.
Proof. reflexivity. Qed.

Lemma run_ret_bind {A B} (a : A) (f : A -> M B) :
  (x <- ret a ;; f x) = f a.
Proof. reflexivity. Qed.

Lemma not_accepted_find (kw : pydict) :
  keywords_accepted kw = false ->
  exists k,
    find (fun k => negb (bool_decide (k ∈ session_request_parameters)))
         (Dict.keys kw) = Some k.
Proof.
  unfold keywords_accepted, Dict.keys.
  induction kw as [|[k v] kw IH]; simpl; [discriminate|].
  destruct (bool_decide (k ∈ session_request_parameters)); simpl; eauto.
Qed.

Section Rejected.

Variable session_request :
  heap -> string -> string -> bool -> pydict -> Response + transport_error.
Variable json_loads : Response -> option json.
Variable response_text : Response -> string.

Lemma send_rejected_run self method path rof kwargs (h : heap) tr kw0 :
  h !! kwargs = Some kw0 ->
  keywords_accepted kw0 = false ->
  exists k h' tr',
    _send_request_to_api session_request json_loads response_text
      self method path rof kwargs {| st_heap := h; st_trace := tr |}
    = (Raise (TypeError k), {| st_heap := h'; st_trace := tr' |})
    /\ session_calls tr' = session_calls tr.
Proof.
  intros Hkw Hacc.
  rewrite <- (send_heap_accepted _ _ _ Hkw) in Hacc.
  destruct (not_accepted_find _ Hacc) as [bad Hbad].
  unfold _send_request_to_api.
  mstep deref_run. mstep timeout_default_run. mstep deref_run.
  set (kw := heap_get (send_heap kwargs h) kwargs) in *.
  unfold keywords at 1. cbn [app Dict.keys map fst find].
  destruct (bool_decide (is_Some (Dict.get "method" kw))) eqn:Hm;
    cbv beta iota; [rewrite run_raise_bind; unfold raise; eauto|].
  destruct (bool_decide (is_Some (Dict.get "url" kw))) eqn:Hu;
    cbv beta iota; [rewrite run_raise_bind; unfold raise; eauto|].
  rewrite run_ret_bind.
  unfold logger_debug at 1. mstep emit_run.
  assert (Hcalls : forall e : event,
             match e with EvLog _ _ _ => True | _ => False end ->
             session_calls (tr ++ [e]) = session_calls tr).
  { intros [lvl msg kw'|] He; [|contradiction].
    rewrite session_calls_app. apply app_nil_r. }
  unfold session_request_call.
  unfold keywords at 1. cbn [app Dict.keys map fst find].
  rewrite Hm, Hu. cbv beta iota.
  destruct (bool_decide (is_Some (Dict.get "verify" kw)));
    cbv beta iota.
  - rewrite !run_raise_bind. unfold raise.
    do 3 eexists. split; [reflexivity|]. now apply Hcalls.
  - rewrite run_ret_bind, Hbad, run_raise_bind. unfold raise.
    do 3 eexists. split; [reflexivity|]. now apply Hcalls.
Qed.

End Rejected.

(** X4.  Keyword arguments that [Session.request] does not take never
    reach the chief: [_send_request_to_api] raises a [TypeError] and makes
    no call of [Session.request]. *)
Theorem send_rejects_unknown_keywords
    session_request json_loads response_text self method path rof kwargs h
    tr kw0 :
  h !! kwargs = Some kw0 ->
  keywords_accepted kw0 = false ->
  let run :=
    _send_request_to_api session_request json_loads response_text
      self method path rof kwargs in
  let s := {| st_heap := h; st_trace := tr |} in
  (exists k, outcome run s = Raise (TypeError k))
  /\ session_calls (trace_after run s) = session_calls tr.
Proof.
  intros Hkw Hacc run s. subst run s. unfold outcome, trace_after.
  destruct (send_rejected_run session_request json_loads response_text
              self method path rof kwargs h tr kw0 Hkw Hacc)
    as (k & h' & tr' & -> & Hcalls).
  split; [now exists k|exact Hcalls].
Qed.

Lemma send_rejects_unknown_keywords_witness :
  let run :=
    _send_request_to_api (Sample.answers Sample.r200) Sample.json_loads
      Sample.response_text (Client_init Sample.conf) "GET"
      "background-tasks/t" false 0%nat in
  let s := {| st_heap := [[("url", VStr "http://other")]]; st_trace := [] |} in
  (exists k, outcome run s = Raise (TypeError k))
  /\ session_calls (trace_after run s) = [].
Proof.
  exact (send_rejects_unknown_keywords (Sample.answers Sample.r200)
           Sample.json_loads Sample.response_text (Client_init Sample.conf)
           "GET" "background-tasks/t" false 0%nat
           [[("url", VStr "http://other")]] [] [("url", VStr "http://other")]
           eq_refl eq_refl).
Defined.

(** ** What a forward raises, sends and logs *)

(** X5.  A forward can only fail in three ways: with the error of the
    transport, with the domain error (only when [raise_on_failure] is true
    and the response is a failing one), or with the [KeyError] of the
    header translation.  The keyword arguments that request translation
    builds never make [Session.request] or the logger raise a
    [TypeError]. *)
Theorem forward_exceptions
    session_request json_loads response_text self method path request body
    rof s e :
  outcome
    (_proxy_request_to_chief session_request json_loads response_text
       self method path request body rof) s = Raise e ->
  (exists te, e = RequestException te)
  \/ (exists r, e = MLRunHTTPError r /\ rof = true /\ ok r = false)
  \/ (exists k, e = KeyError k).
Proof.
  unfold outcome. destruct s as [h tr]. rewrite proxy_run. cbv zeta.
  destruct (session_request _ _ _ _ _) as [r|te].
  - assert (Htr : forall e', translated r = Raise e' ->
                  exists k, e' = KeyError k).
    { unfold translated. intros e' H.
      destruct (dict_of_cid (headers r)) as [hdrs|e''] eqn:E;
        [discriminate|].
      injection H as <-. now apply dict_of_cid_raises in E. }
    destruct (ok r) eqn:Hok; cbn [fst].
    + intros H. right. right. now apply Htr.
    + destruct rof; cbn [fst]; intros H.
      * injection H as <-. right. left. now exists r.
      * right. right. now apply Htr.
  - cbn [fst]. intros H. injection H as <-. left. eauto.
Qed.

Lemma forward_exceptions_witness :
  (exists te, RequestException ConnectionError = RequestException te)
  \/ (exists r, RequestException ConnectionError = MLRunHTTPError r
                /\ true = true /\ ok r = false)
  \/ (exists k, RequestException ConnectionError = KeyError k).
Proof.
  exact (forward_exceptions Sample.unreachable Sample.json_loads
           Sample.response_text (Client_init Sample.conf) "POST"
           "submit_job" (Some Sample.request) None true Sample.state
           (RequestException ConnectionError) eq_refl).
Defined.

(** X6.  Every forward first logs the attempt at debug level, with the
    method, the URL and the keyword arguments, and then calls
    [Session.request] exactly once, with these keyword arguments, a
    timeout of 20 and certificate verification switched off.  Whatever the
    chief answers, no second call is made: a failing response is not
    retried.  At most one more record is logged afterwards. *)
Theorem forward_sends_exactly_once
    session_request json_loads response_text self method path request body
    rof s :
  let run :=
    _proxy_request_to_chief session_request json_loads response_text
      self method path request body rof in
  exists kw rest,
    events_since (st_trace s) (trace_after run s)
    = EvLog DEBUG "Sending request to chief"
        ([("method", VStr method); ("url", VStr (build_url self path))]
         ++ kw)
      :: EvRequest method (build_url self path) false kw :: rest
    /\ trace_after run s
       = st_trace s ++ events_since (st_trace s) (trace_after run s)
    /\ Dict.get "timeout" kw = Some (VInt 20)
    /\ session_calls rest = []
    /\ (length rest <= 1)%nat.
Proof.
  intros run. subst run.
  pose proof (forward_trace session_request json_loads response_text
                self method path request body rof s) as Htr.
  pose proof (forward_events session_request json_loads response_text
                self method path request body rof s) as Hev.
  cbv zeta in Hev. cbn [app] in Hev.
  do 2 eexists. split; [exact Hev|]. split; [exact Htr|].
  split; [destruct request; reflexivity|].
  destruct (session_request _ _ _ _ _) as [r|e];
    [destruct (ok r)|]; cbn; split; reflexivity || lia.
Qed.

(** X7.  On a response that is not a failing one, [raise_on_failure] has
    no effect at all: the result, the store and the trace of the forward
    are the same for both values. *)
Theorem raise_on_failure_ignored_on_success
    session_request json_loads response_text self method path request body
    s r :
  (forall h kw,
      session_request h method (build_url self path) false kw = inl r) ->
  ok r = true ->
  _proxy_request_to_chief session_request json_loads response_text
    self method path request body true s
  = _proxy_request_to_chief session_request json_loads response_text
      self method path request body false s.
Proof.
  intros Hsr Hok. destruct s as [h tr].
  rewrite !proxy_run. cbv zeta. now rewrite Hsr, Hok.
Qed.

Lemma raise_on_failure_ignored_on_success_witness :
  _proxy_request_to_chief (Sample.answers Sample.r200) Sample.json_loads
    Sample.response_text (Client_init Sample.conf) "POST" "submit_job"
    (Some Sample.request) (Some 0%nat) true Sample.state
  = _proxy_request_to_chief (Sample.answers Sample.r200) Sample.json_loads
      Sample.response_text (Client_init Sample.conf) "POST" "submit_job"
      (Some Sample.request) (Some 0%nat) false Sample.state.
Proof.
  exact (raise_on_failure_ignored_on_success (Sample.answers Sample.r200)
           Sample.json_loads Sample.response_text (Client_init Sample.conf)
           "POST" "submit_job" (Some Sample.request) (Some 0%nat)
           Sample.state Sample.r200 (fun _ _ => eq_refl) eq_refl).
Defined.

(** X8.  [raise_on_failure] decides only whether the failing response is
    raised or returned: the warning is logged before that, so the trace
    and the store after the forward are the same for both values, whatever
    the chief answers. *)
Theorem raise_on_failure_changes_outcome_only
    session_request json_loads response_text self method path request body
    s :
  let forward :=
    _proxy_request_to_chief session_request json_loads response_text
      self method path request body in
  snd (forward true s) = snd (forward false s)
  /\ logged_failure (events_since (st_trace s) (trace_after (forward true) s))
     = logged_failure
         (events_since (st_trace s) (trace_after (forward false) s)).
Proof.
  intros forward. subst forward.
  assert (H : snd (_proxy_request_to_chief session_request json_loads
                     response_text self method path request body true s)
              = snd (_proxy_request_to_chief session_request json_loads
                       response_text self method path request body false s)).
  { destruct s as [h tr]. rewrite !proxy_run. cbv zeta.
    destruct (session_request _ _ _ _ _) as [r|e]; [|reflexivity].
    now destruct (ok r). }
  split; [exact H|]. unfold trace_after. now rewrite H.
Qed.

(** X9.  A forward changes no object that existed before it: the body
    and the cookies of the caller, though they are handed to
    [Session.request] as they are, come back untouched, on the success
    branch, on the failure branch and when the transport fails. *)
Theorem forward_leaves_existing_objects
    session_request json_loads response_text self method path request body
    rof s :
  frames (st_heap s)
    (heap_after
       (_proxy_request_to_chief session_request json_loads response_text
          self method path request body rof) s).
Proof.
  destruct s as [h tr]. unfold heap_after. rewrite proxy_run. cbv zeta.
  cbn [st_heap].
  assert (Hsent : frames h (sent_heap h request body)) by apply frames_app.
  destruct (session_request _ _ _ _ _) as [r|e]; [|exact Hsent].
  destruct (ok r); [exact Hsent|]. cbn [snd st_heap].
  set (h1 := sent_heap h request body) in *.
  set (kwargs := proxy_kwargs h request body).
  assert (Hloc : log_loc kwargs h1 = length h1).
  { unfold log_loc.
    now rewrite (deepcopy_fuel_alloc _ _ _ _ _ (lookup_empty kwargs)
                   (lookup_sent h request body)). }
  unfold failure_heap. rewrite Hloc.
  pose proof (deepcopy_fuel_frames (S (length h1)) (VRef kwargs) ∅ h1)
    as [Hlen Hsame].
  destruct Hsent as [Hlen1 Hsame1].
  split; [rewrite !length_alter; lia|].
  intros j Hj. rewrite !list_lookup_alter_ne by lia.
  rewrite Hsame by lia. now apply Hsame1.
Qed.

(** ** The record of the warning *)

Section WarningRecord.

Variable session_request :
  heap -> string -> string -> bool -> pydict -> Response + transport_error.
Variable json_loads : Response -> option json.
Variable response_text : Response -> string.

(** The warning of the failure branch, in a closed store: the copied
    keyword arguments, then method and path, then the error details. *)
Lemma failure_record self method path request body rof s r :
  (forall h kw,
      session_request h method (build_url self path) false kw = inl r) ->
  ok r = false ->
  closed_heap (st_heap s) = true ->
  request_closed (st_heap s) request = true ->
  exists memo first second,
    events_since (st_trace s)
      (trace_after
         (_proxy_request_to_chief session_request json_loads response_text
            self method path request body rof) s)
    = [first; second;
       EvLog WARNING "Request to chief failed"
         (Dict.update (error_details json_loads r)
            (rename memo (sent_kwargs (st_heap s) request body)
             ++ [("method", VStr method); ("path", VStr path)]))].
Proof.
  intros Hsr Hok Hclosed Hreq.
  set (h1 := sent_heap (st_heap s) request body).
  set (kwargs := proxy_kwargs (st_heap s) request body).
  set (kw := sent_kwargs (st_heap s) request body).
  assert (Hcl1 : closed_heap h1 = true) by now apply sent_heap_closed.
  assert (Hlt : (kwargs < length h1)%nat) by apply proxy_kwargs_lt.
  assert (Hkw : h1 !! kwargs = Some kw) by apply lookup_sent.
  destruct (deepcopy_closed_store h1 kwargs Hcl1 Hlt)
    as (memo & Hout & Hmemo & [_ _ _ Hd]).
  assert (Hloc : log_loc kwargs h1 = length h1).
  { unfold log_loc. now rewrite Hout. }
  destruct (Hd _ _ Hmemo (not_elem_of_empty _)) as (d & Hd1 & _ & Hcopy).
  assert (d = kw) as -> by congruence.
  exists memo. rewrite forward_events. cbv zeta. rewrite Hsr, Hok.
  fold h1 kwargs kw. do 2 eexists. cbn [app]. do 3 f_equal.
  unfold failure_heap, heap_get. rewrite Hloc.
  rewrite !list_lookup_alter_eq, Hcopy.
  cbn [fmap option_fmap option_map default].
  subst kw. now rewrite log_record_items.
Qed.

End WarningRecord.

(** X10.  When a failing response has a body that decodes to a JSON
    object, the warning carries, next to the copied keyword arguments, the
    method and the path, the fields [error] and [error_stack_trace], read
    from [error] and [errorStackTrace] of the object; a field that the
    object lacks is logged as [None]. *)
Theorem warning_carries_error_details
    session_request json_loads response_text self method path request body
    rof s r fields :
  (forall h kw,
      session_request h method (build_url self path) false kw = inl r) ->
  ok r = false ->
  closed_heap (st_heap s) = true ->
  request_closed (st_heap s) request = true ->
  content r <> [] ->
  json_loads r = Some (JObj fields) ->
  exists first second log_kw,
    events_since (st_trace s)
      (trace_after
         (_proxy_request_to_chief session_request json_loads response_text
            self method path request body rof) s)
    = [first; second; EvLog WARNING "Request to chief failed" log_kw]
    /\ Dict.get "error" log_kw
       = Some match Dict.get "error" fields with
              | Some v => val_of_json v
              | None => VNone
              end
    /\ Dict.get "error_stack_trace" log_kw
       = Some match Dict.get "errorStackTrace" fields with
              | Some v => val_of_json v
              | None => VNone
              end
    /\ Dict.get "method" log_kw = Some (VStr method)
    /\ Dict.get "path" log_kw = Some (VStr path)
    /\ Dict.get "timeout" log_kw = Some (VInt 20).
Proof.
  intros Hsr Hok Hclosed Hreq Hcontent Hjson.
  destruct (failure_record session_request json_loads response_text
              self method path request body rof s r Hsr Hok Hclosed Hreq)
    as (memo & first & second & Hev).
  exists first, second. eexists. split; [exact Hev|].
  unfold error_details. rewrite Hjson.
  destruct (content r) as [|b bs]; [contradiction|].
  unfold sent_kwargs. destruct request; repeat split; reflexivity.
Qed.

Lemma warning_carries_error_details_witness :
  exists first second log_kw,
    events_since []
      (trace_after
         (_proxy_request_to_chief (Sample.answers Sample.r500)
            Sample.json_loads Sample.response_text (Client_init Sample.conf)
            "POST" "submit_job" (Some Sample.request) (Some 0%nat) false)
         Sample.state)
    = [first; second; EvLog WARNING "Request to chief failed" log_kw]
    /\ Dict.get "error" log_kw = Some (VStr "boom")
    /\ Dict.get "error_stack_trace" log_kw = Some VNone.
Proof.
  destruct (warning_carries_error_details (Sample.answers Sample.r500)
              Sample.json_loads Sample.response_text (Client_init Sample.conf)
              "POST" "submit_job" (Some Sample.request) (Some 0%nat) false
              Sample.state Sample.r500 [("error", JStr "boom")]
              (fun _ _ => eq_refl) eq_refl eq_refl eq_refl
              ltac:(discriminate) eq_refl)
    as (first & second & log_kw & Hev & Herr & Hst & _).
  exists first, second, log_kw. now repeat split.
Defined.

(** X11.  When a failing response has no body, or a body that cannot be
    decoded, or one that decodes to something else than an object (a list,
    a string, a number, [null]), the failure of the extraction is
    swallowed: the warning is logged all the same, with the method, the
    path and the timeout, and without the fields [error] and
    [error_stack_trace]. *)
Theorem warning_without_error_details
    session_request json_loads response_text self method path request body
    rof s r :
  (forall h kw,
      session_request h method (build_url self path) false kw = inl r) ->
  ok r = false ->
  closed_heap (st_heap s) = true ->
  request_closed (st_heap s) request = true ->
  content r = [] \/ (forall fields, json_loads r <> Some (JObj fields)) ->
  exists first second log_kw,
    events_since (st_trace s)
      (trace_after
         (_proxy_request_to_chief session_request json_loads response_text
            self method path request body rof) s)
    = [first; second; EvLog WARNING "Request to chief failed" log_kw]
    /\ Dict.get "error" log_kw = None
    /\ Dict.get "error_stack_trace" log_kw = None
    /\ Dict.get "method" log_kw = Some (VStr method)
    /\ Dict.get "path" log_kw = Some (VStr path)
    /\ Dict.get "timeout" log_kw = Some (VInt 20).
Proof.
  intros Hsr Hok Hclosed Hreq Hbody.
  destruct (failure_record session_request json_loads response_text
              self method path request body rof s r Hsr Hok Hclosed Hreq)
    as (memo & first & second & Hev).
  exists first, second. eexists. split; [exact Hev|].
  assert (Hnone : error_details json_loads r = []).
  { unfold error_details. destruct (content r) as [|b bs]; [reflexivity|].
    destruct Hbody as [Hbody|Hbody]; [discriminate|].
    destruct (json_loads r) as [[]|]; try reflexivity.
    now destruct (Hbody fields). }
  rewrite Hnone.
  unfold sent_kwargs. destruct request; repeat split; reflexivity.
Qed.

Lemma warning_without_error_details_witness :
  exists first second log_kw,
    events_since []
      (trace_after
         (_proxy_request_to_chief (Sample.answers Sample.r500)
            Sample.json_fails Sample.response_text (Client_init Sample.conf)
            "POST" "submit_job" (Some Sample.request) (Some 0%nat) true)
         Sample.state)
    = [first; second; EvLog WARNING "Request to chief failed" log_kw]
    /\ Dict.get "error" log_kw = None.
Proof.
  assert (Hbody : content Sample.r500 = []
                  \/ forall fields,
                       Sample.json_fails Sample.r500 <> Some (JObj fields))
    by (right; intros fields H; discriminate H).
  destruct (warning_without_error_details (Sample.answers Sample.r500)
              Sample.json_fails Sample.response_text (Client_init Sample.conf)
              "POST" "submit_job" (Some Sample.request) (Some 0%nat) true
              Sample.state Sample.r500
              (fun _ _ => eq_refl) eq_refl eq_refl eq_refl Hbody)
    as (first & second & log_kw & Hev & Herr & _).
  exists first, second, log_kw. now split.
Defined.

(** ** The record of the success branch *)

(** X12.  On a response that is not a failing one, the forward logs one
    debug record after the request, with the method, the URL, the keyword
    arguments and, under [response], the decoded body: the JSON value when
    the body decodes, the text of the body when it does not.  No warning is
    logged and no copy of the keyword arguments is made: the store is the
    one [Session.request] was called in. *)
Theorem success_logs_decoded_body
    session_request json_loads response_text self method path request body
    rof s r :
  (forall h kw,
      session_request h method (build_url self path) false kw = inl r) ->
  ok r = true ->
  let run :=
    _proxy_request_to_chief session_request json_loads response_text
      self method path request body rof in
  exists first second log_kw,
    events_since (st_trace s) (trace_after run s)
    = [first; second; EvLog DEBUG "Request to chief succeeded" log_kw]
    /\ Dict.get "response" log_kw
       = Some match json_loads r with
              | Some j => val_of_json j
              | None => VStr (response_text r)
              end
    /\ Dict.get "method" log_kw = Some (VStr method)
    /\ Dict.get "url" log_kw = Some (VStr (build_url self path))
    /\ heap_after run s = sent_heap (st_heap s) request body.
Proof.
  intros Hsr Hok run. subst run.
  rewrite forward_events. cbv zeta. rewrite Hsr, Hok.
  do 3 eexists. split; [reflexivity|].
  split; [unfold decoded, sent_kwargs; destruct request; reflexivity|].
  split; [reflexivity|]. split; [reflexivity|].
  destruct s as [h tr]. unfold heap_after. rewrite proxy_run. cbv zeta.
  now rewrite Hsr, Hok.
Qed.

Lemma success_logs_decoded_body_witness :
  exists first second log_kw,
    events_since []
      (trace_after
         (_proxy_request_to_chief (Sample.answers Sample.r204)
            Sample.json_loads Sample.response_text (Client_init Sample.conf)
            "DELETE" "projects/p" (Some Sample.request) None false)
         Sample.state)
    = [first; second; EvLog DEBUG "Request to chief succeeded" log_kw]
    /\ Dict.get "response" log_kw = Some (VStr "").
Proof.
  destruct (success_logs_decoded_body (Sample.answers Sample.r204)
              Sample.json_loads Sample.response_text (Client_init Sample.conf)
              "DELETE" "projects/p" (Some Sample.request) None false
              Sample.state Sample.r204 (fun _ _ => eq_refl) eq_refl)
    as (first & second & log_kw & Hev & Hresp & _).
  exists first, second, log_kw. now split.
Defined.

(** ** Headers built by [requests] *)

Lemma cid_build_wf sets : CID.wf (cid_build sets) = true.
Proof.
  unfold cid_build.
  assert (Hnil : CID.wf [] = true) by reflexivity.
  revert Hnil. generalize (@nil (string * (string * string))).
  induction sets as [|[k v] sets IH]; intros store Hwf; simpl.
  - exact Hwf.
  - apply IH. now apply cid_setitem_wf.
Qed.

Lemma dict_get_none_not_in {V} k (d : list (string * V)) :
  Dict.get k d = None -> k ∉ map fst d.
Proof.
  induction d as [|[k' v] d IH]; simpl; intros H Hin.
  - now apply elem_of_nil in Hin.
  - destruct (String.eqb_spec k k') as [->|Hne]; [discriminate|].
    apply elem_of_cons in Hin as [Hin|Hin]; [contradiction|].
    now apply IH.
Qed.

Lemma cid_wf_names (store : CaseInsensitiveDict) :
  CID.wf store = true ->
  map (fun kv => Str.lower (fst kv)) (CID.items store) = map fst store
  /\ NoDup (map fst store).
Proof.
  induction store as [|[lk [k v]] store IH]; simpl.
  - intros _. split; [reflexivity|constructor].
  - intros H. apply andb_prop in H as [H Hrest].
    apply andb_prop in H as [Hlk Hget]. apply String.eqb_eq in Hlk.
    destruct (IH Hrest) as [Hmap Hnd].
    split; [unfold CID.items in *; simpl; now rewrite Hmap, Hlk|].
    constructor; [|exact Hnd].
    apply dict_get_none_not_in. now destruct (Dict.get lk store).
Qed.

Lemma dict_set_elem {V} k (v : V) d : (k, v) ∈ Dict.set k v d.
Proof.
  induction d as [|[k' v'] d IH]; simpl.
  - apply list_elem_of_here.
  - destruct (String.eqb_spec k k') as [->|Hne].
    + apply list_elem_of_here.
    + now apply list_elem_of_further.
Qed.

(** X13.  For a response whose headers were built the way [requests]
    builds them, by setting them one after the other in a case-insensitive
    dictionary, the translation never fails.  The translated headers have
    one entry for each name, names that differ only in case counting as
    one, and the header that was set last is among them with the casing
    and the value it was set with. *)
Theorem convert_accepts_built_headers
    (sets : list (string * string)) (r : Response) (s : State) :
  headers r = cid_build sets ->
  _convert_requests_response_to_fastapi_response r s
  = (Return {| resp_content := content r;
               resp_status_code := status_code r;
               resp_headers := CID.items (cid_build sets);
               resp_media_type := "application/json" |}, s)
  /\ NoDup (map (fun kv => Str.lower (fst kv)) (CID.items (cid_build sets)))
  /\ forall k v, (k, v) ∈ CID.items (cid_build (sets ++ [(k, v)])).
Proof.
  intros Hh. split; [|split].
  - rewrite convert_run. unfold translated.
    now rewrite Hh, (dict_of_cid_wf _ (cid_build_wf sets)).
  - destruct (cid_wf_names _ (cid_build_wf sets)) as [-> Hnd]. exact Hnd.
  - intros k v. unfold cid_build. rewrite fold_left_app. simpl.
    unfold CID.setitem, CID.items.
    apply list_elem_of_In.
    apply (in_map snd _ (Str.lower k, (k, v))).
    apply list_elem_of_In, dict_set_elem.
Qed.

Lemma convert_accepts_built_headers_witness :
  let r := {| content := []; status_code := 200;
              headers := cid_build [("X-Id", "1"); ("x-id", "2")] |} in
  _convert_requests_response_to_fastapi_response r Sample.state
  = (Return {| resp_content := [];
               resp_status_code := 200;
               resp_headers := [("x-id", "2")];
               resp_media_type := "application/json" |}, Sample.state).
Proof.
  exact (proj1
    (convert_accepts_built_headers [("X-Id", "1"); ("x-id", "2")]
       {| content := []; status_code := 200;
          headers := cid_build [("X-Id", "1"); ("x-id", "2")] |}
       Sample.state eq_refl)).
Defined.

(** ** The paths of the named operations *)

Lemma clean_segment_inv s :
  clean_segment s = true ->
  String.eqb s "" = false
  /\ Str.startswith_char "/" s = false
  /\ Str.endswith_char "/" s = false
  /\ Str.has_double_slash s = false.
Proof.
  unfold clean_segment. rewrite !andb_true_iff, !negb_true_iff. tauto.
Qed.

Lemma startswith_app_nonempty c a b :
  String.eqb a "" = false ->
  Str.startswith_char c (a +:+ b) = Str.startswith_char c a.
Proof. destruct a; [discriminate|reflexivity]. Qed.

Lemma op_path_clean op :
  forallb clean_segment (op_variables op) = true ->
  Str.startswith_char "/" (op_path op) = false
  /\ Str.has_double_slash (op_path op) = false.
Proof.
  intros Hvars. split; [now destruct op|].
  destruct op; cbn [op_variables forallb] in Hvars; cbn [op_path];
    rewrite ?andb_true_r in Hvars;
    repeat match type of Hvars with
           | _ && _ = true => apply andb_prop in Hvars as [? Hvars]
           end;
    repeat match goal with
           | H : clean_segment _ = true |- _ =>
               apply clean_segment_inv in H as (? & ? & ? & ?)
           end;
    rewrite ?has_double_slash_app;
    rewrite ?startswith_app_nonempty by (assumption || reflexivity);
    repeat match goal with
           | H : _ = false |- _ => rewrite H
           end;
    reflexivity.
Qed.

Lemma double_slashes_from_none n s :
  Str.has_double_slash s = false -> double_slashes_from n s = [].
Proof.
  revert n. induction s as [|a s IH]; intros n; [reflexivity|].
  cbn [Str.has_double_slash double_slashes_from]. intros H.
  apply orb_false_elim in H as [-> H]. now apply IH.
Qed.

(** Appending a text that has no double slash, at a junction that makes
    none, leaves the double slashes where they are. *)
Lemma double_slashes_from_app n a b :
  Str.endswith_char "/" a && Str.startswith_char "/" b = false ->
  Str.has_double_slash b = false ->
  double_slashes_from n (a +:+ b) = double_slashes_from n a.
Proof.
  intros Hj Hb. revert n Hj.
  induction a as [|x a IH]; intros n Hj.
  - now apply double_slashes_from_none.
  - change (String x a +:+ b) with (String x (a +:+ b)).
    cbn [double_slashes_from]. rewrite startswith_app.
    destruct a as [|y a].
    + cbn [Str.endswith_char] in Hj. rewrite Hj.
      cbn [Str.startswith_char]. rewrite andb_false_r.
      change ("" +:+ b) with b.
      now rewrite (double_slashes_from_none _ _ Hb).
    + f_equal. apply IH.
      now rewrite (endswith_cons "/" x (String y a)) in Hj
        by (intros E; discriminate E).
Qed.

(** What the places are: at each of them, and nowhere else, a slash is
    followed by a slash. *)
Lemma double_slashes_from_spec n s i :
  In i (double_slashes_from n s)
  <-> exists j, i = (n + j)%nat
                /\ String.get j s = Some "/"%char
                /\ String.get (S j) s = Some "/"%char.
Proof.
  revert n. induction s as [|a s IH]; intros n.
  - split; [intros []|]. intros (j & _ & H & _). destruct j; discriminate H.
  - cbn [double_slashes_from]. rewrite in_app_iff, IH. split.
    + intros [H|(j & -> & H0 & H1)].
      * destruct (Ascii.eqb a "/") eqn:Ea; [|destruct H].
        destruct (Str.startswith_char "/" s) eqn:Es; [|destruct H].
        destruct H as [<-|[]]. exists 0%nat.
        apply Ascii.eqb_eq in Ea. subst a.
        destruct s as [|b s]; [discriminate Es|].
        apply Ascii.eqb_eq in Es. subst b.
        repeat split. lia.
      * exists (S j). repeat split; [lia|assumption|assumption].
    + intros (j & -> & H0 & H1). destruct j as [|j].
      * left. cbn in H0. injection H0 as ->.
        destruct s as [|b s]; [discriminate H1|].
        cbn in H1. injection H1 as ->.
        left. lia.
      * right. exists j. repeat split; [lia|assumption|assumption].
Qed.

(** X14.  With a configured base URL that does not end with two slashes,
    a version and path variables that are not empty, have no slash at
    either end and no double slash inside, the URL that a named operation
    sends its request to is the stored base URL followed by a text that
    adds no double slash: the URL has a slash followed by a slash at
    exactly the places where the stored base URL has one, such as the one
    after the scheme. *)
Theorem named_operation_url_adds_no_double_slash
    session_request json_loads response_text conf op s :
  Str.endswith_char "/" (chief_api_url conf)
  && Str.endswith_char "/" (Str.drop_last (chief_api_url conf)) = false ->
  clean_segment (api_base_version conf) = true ->
  forallb clean_segment (op_variables op) = true ->
  exists url,
    requests_sent
      (trace_after
         (call session_request json_loads response_text (Client_init conf)
            op) s)
    = requests_sent (st_trace s) ++ [(op_method op, url)]
    /\ url = _api_url (Client_init conf) +:+ "/api/"
             +:+ api_base_version conf +:+ "/" +:+ op_path op
    /\ double_slashes url = double_slashes (_api_url (Client_init conf))
    /\ forall i,
         String.get i url = Some "/"%char
         /\ String.get (S i) url = Some "/"%char
         <-> String.get i (_api_url (Client_init conf)) = Some "/"%char
             /\ String.get (S i) (_api_url (Client_init conf))
                = Some "/"%char.
Proof.
  intros Hbase Hversion Hvars.
  set (self := Client_init conf).
  set (rest := {| _session := _session self; _api_url := "";
                  _conf := _conf self |}).
  assert (Hplaces :
            double_slashes (build_url self (op_path op))
            = double_slashes (_api_url self)).
  { change (build_url self (op_path op))
      with (_api_url self +:+ build_url rest (op_path op)).
    apply double_slashes_from_app.
    - unfold self. now rewrite api_url_trailing_slash, Hbase.
    - rewrite build_url_double_slash. cbv zeta.
      change (api_base_version (_conf rest)) with (api_base_version conf).
      destruct (op_path_clean op Hvars) as [-> ->].
      apply clean_segment_inv in Hversion as (Hne & Hs & He & Hd).
      rewrite He, Hd.
      destruct (api_base_version conf) eqn:E; [discriminate Hne|].
      now rewrite Hs. }
  exists (build_url self (op_path op)).
  split; [rewrite call_forward; apply forward_requests_sent|].
  split; [reflexivity|]. split; [exact Hplaces|].
  intros i. unfold double_slashes in Hplaces.
  pose proof (double_slashes_from_spec 0 (build_url self (op_path op)) i)
    as Hurl.
  pose proof (double_slashes_from_spec 0 (_api_url self) i) as Hapi.
  rewrite Hplaces in Hurl. split.
  - intros H.
    assert (Hin : In i (double_slashes_from 0 (_api_url self)))
      by (apply Hurl; now exists i).
    apply Hapi in Hin as (j & Hj & Hin).
    now replace i with j by lia.
  - intros H.
    assert (Hin : In i (double_slashes_from 0 (_api_url self)))
      by (apply Hapi; now exists i).
    apply Hurl in Hin as (j & Hj & Hin).
    now replace i with j by lia.
Qed.

Lemma named_operation_url_adds_no_double_slash_witness :
  exists url,
    requests_sent
      (trace_after
         (call (Sample.answers Sample.r200) Sample.json_loads
            Sample.response_text (Client_init Sample.conf)
            (OpInvokeSchedule "p" "nightly" Sample.request)) Sample.state)
    = [("POST", url)]
    /\ url = "http://chief:8080/api/v1/projects/p/schedules/nightly/invoke"
    /\ double_slashes url = [5%nat]
    /\ forall i,
         String.get i url = Some "/"%char
         /\ String.get (S i) url = Some "/"%char
         <-> String.get i "http://chief:8080" = Some "/"%char
             /\ String.get (S i) "http://chief:8080" = Some "/"%char.
Proof.
  exact (named_operation_url_adds_no_double_slash
           (Sample.answers Sample.r200) Sample.json_loads
           Sample.response_text Sample.conf
           (OpInvokeSchedule "p" "nightly" Sample.request) Sample.state
           eq_refl eq_refl eq_refl).
Defined.

(** ** The request line of the named operations *)

Lemma append_inv_head a x y : a +:+ x = a +:+ y -> x = y.
Proof.
  induction a as [|c a IH]; simpl; [trivial|].
  intros H. injection H as H. now apply IH.
Qed.

Lemma slash_split a a' x y :
  slash_free a = true -> slash_free a' = true ->
  a +:+ String "/" x = a' +:+ String "/" y -> a = a' /\ x = y.
Proof.
  revert a'. induction a as [|c a IH]; intros [|c' a']; simpl.
  - intros _ _ H. injection H as H. now split.
  - intros _ Ha' H. injection H as <- _. discriminate Ha'.
  - intros Ha _ H. injection H as -> _. discriminate Ha.
  - intros Ha Ha' H. injection H as -> H.
    apply andb_prop in Ha as [_ Ha]. apply andb_prop in Ha' as [_ Ha'].
    destruct (IH a' Ha Ha' H) as [-> ->]. now split.
Qed.

Lemma slash_free_app a b :
  slash_free (a +:+ b) = slash_free a && slash_free b.
Proof.
  induction a as [|c a IH]; simpl; [reflexivity|].
  now rewrite IH, andb_assoc.
Qed.

Lemma op_line_injective op1 op2 :
  forallb slash_free (op_variables op1) = true ->
  forallb slash_free (op_variables op2) = true ->
  op_method op1 = op_method op2 ->
  op_path op1 = op_path op2 ->
  op_kind op1 = op_kind op2 /\ op_variables op1 = op_variables op2.
Proof.
  intros H1 H2 Hm Hp.
  destruct op1, op2;
    cbn [op_method op_path op_kind op_variables forallb] in *;
    try discriminate Hm; try (simpl in Hp; discriminate Hp);
    rewrite ?andb_true_r in *;
    repeat match goal with
           | H : _ && _ = true |- _ => apply andb_prop in H as [? ?]
           end.
  all: try (apply append_inv_head in Hp).
  all: try (cbv in Hp; discriminate Hp).
  all: repeat first
         [ apply append_inv_head in Hp
         | apply slash_split in Hp as [? Hp]; [ | assumption | assumption ]
         | progress (injection Hp as Hp) ].
  all: try discriminate Hp.
  all: try (subst; split; reflexivity).
  all: exfalso;
    match goal with
    | H : slash_free ?n = true |- _ =>
        match type of Hp with
        | n = _ => rewrite Hp in H
        | _ = n => rewrite <- Hp in H
        end;
        rewrite slash_free_app in H; apply andb_prop in H as [_ H];
        discriminate H
    end.
Qed.


Lemma build_url_inj self p1 p2 :
  build_url self p1 = build_url self p2 -> p1 = p2.
Proof.
  unfold build_url. intros H.
  now repeat apply append_inv_head in H.
Qed.

(** X15.  Two named operations whose path variables (project and object
    names) contain no slash send the same request line, method and URL,
    only when they are the same operation on the same names: from the
    request that reaches the chief one can tell which operation was
    called and on what. *)
Theorem named_operations_have_distinct_request_lines
    session_request json_loads response_text self op1 op2 s :
  forallb slash_free (op_variables op1) = true ->
  forallb slash_free (op_variables op2) = true ->
  requests_sent
    (trace_after
       (call session_request json_loads response_text self op1) s)
  = requests_sent
      (trace_after
         (call session_request json_loads response_text self op2) s) ->
  op_kind op1 = op_kind op2 /\ op_variables op1 = op_variables op2.
Proof.
  intros H1 H2 Hsent.
  rewrite !call_forward, !forward_requests_sent in Hsent.
  apply app_inv_head in Hsent. injection Hsent as Hm Hurl.
  apply build_url_inj in Hurl.
  now apply op_line_injective.
Qed.

Lemma named_operations_have_distinct_request_lines_witness :
  op_kind (OpGetInternalBackgroundTask "t" None)
  = op_kind (OpGetInternalBackgroundTask "t" (Some Sample.request))
  /\ op_variables (OpGetInternalBackgroundTask "t" None)
     = op_variables (OpGetInternalBackgroundTask "t" (Some Sample.request)).
Proof.
  exact (named_operations_have_distinct_request_lines
           (Sample.answers Sample.r200) Sample.json_loads
           Sample.response_text (Client_init Sample.conf)
           (OpGetInternalBackgroundTask "t" None)
           (OpGetInternalBackgroundTask "t" (Some Sample.request))
           Sample.state eq_refl eq_refl eq_refl).
Defined.

(** The names are inserted as they are: a project name with a slash in it
    makes [delete_project] the same call as [delete_schedules], so the
    condition on the names cannot be left out. *)
Remark slash_in_name_changes_operation
    session_request json_loads response_text self p rq :
  call session_request json_loads response_text self
    (OpDeleteProject (p +:+ "/schedules") rq)
  = call session_request json_loads response_text self
      (OpDeleteSchedules p rq).
Proof. reflexivity. Qed.
